(** * Pitch_score: the scoring engine and the AI-response normaliser of app.py

    A shallow embedding of the parts of [src/app.py] that carry business
    logic, and the properties of them that the design document states:

    - [calculate_comprehensive_metrics]: unit economics, burn multiple,
      the six sub-scores and their weighted sum;
    - the benchmark checks that build the recommendation list;
    - the required-field validation of the submission handler;
    - [generate_ai_insights]: credential checks, the clean-up of the
      model's answer and the fallback record.

    Conventions of the embedding.

    - A Python number (the [int]s and [float]s that the form widgets
      return) is a rational [Q] and arithmetic is exact; [float('inf')] is
      the extra point [Inf] of [xnum].  Rounding, overflow and underflow of
      binary floating point are outside the model.
    - A Python [str] is a [string] whose characters are the code points
      below 256.
    - A [dict] keyed by strings is a [gmap string _]; a [dict] whose order
      is observable (a decoded JSON object) is an association list.
    - A raised exception is the [Raise] branch of [result]; [try]/[except]
      is a [match] on it.
    - Streamlit output ([st.metric], [st.error], charts) and [print] are
      not modelled. *)

From Stdlib Require Import QArith Lqa Ascii String.
From stdpp Require Import gmap strings list.

#[local] Set Warnings "-register-all".
#[local] Open Scope Q_scope.

(** ** Python values and exceptions *)

(** The values the form stores in [form_data]: text and numbers.  (The
    entry ['uploaded_docs'], a [dict] that only the prompt of the AI call
    reads, is left out.) *)
Inductive pyval :=
| VStr (s : string)
| VNum (q : Q).

(** The exceptions of the scoring code. *)
Inductive pyexn :=
| KeyError (k : string)
| TypeError
| ZeroDivisionError.

(** A computation that returns or raises; [E] is what a handler sees of the
    exception. *)
Inductive result (E A : Type) :=
| Ok (a : A)
| Raise (e : E).
Arguments Ok {E A} a.
Arguments Raise {E A} e.

#[global] Instance result_ret {E} : MRet (result E) := λ A a, Ok a.
#[global] Instance result_bind {E} : MBind (result E) :=
  λ A B f m, match m with Ok a => f a | Raise e => Raise e end.

(** [float('inf')] next to the finite numbers. *)
Inductive xnum :=
| Fin (q : Q)
| Inf.

(** ** Numeric primitives *)

(** [a > b], [a >= b], [a < b] on numbers. *)
Definition num_gt (a b : Q) : bool := negb (Qle_bool a b).
Definition num_ge (a b : Q) : bool := Qle_bool b a.
Definition num_lt (a b : Q) : bool := negb (Qle_bool b a).

(** [min(a, b)] and [max(a, b)]: the first argument unless the second is
    strictly smaller (resp. larger). *)
Definition py_min (a b : Q) : Q := if num_lt b a then b else a.
Definition py_max (a b : Q) : Q := if num_gt b a then b else a.

(** [a / b] with a divisor that is not a literal: [ZeroDivisionError] on
    zero.  A division by a non-zero literal is written with [Qdiv]. *)
Definition py_div (a b : Q) : result pyexn Q :=
  if Qeq_bool b 0 then Raise ZeroDivisionError else Ok (a / b).

(** [data.get(k, d)] read as a number.  A [str] stored under [k] makes the
    arithmetic or comparison the value is used in raise [TypeError]
    ([str * int] is a [str], which the enclosing [min] or [-] then refuses),
    with nothing observable in between. *)
Definition get (data : gmap string pyval) (k : string) (d : Q) : result pyexn Q :=
  match data !! k with
  | None => Ok d
  | Some (VNum q) => Ok q
  | Some (VStr _) => Raise TypeError
  end.

(** [data[k]] read as a number: [KeyError] when the key is absent. *)
Definition item (data : gmap string pyval) (k : string) : result pyexn Q :=
  match data !! k with
  | None => Raise (KeyError k)
  | Some (VNum q) => Ok q
  | Some (VStr _) => Raise TypeError
  end.

(** Truth value of [form_data.get(field)]: [None], [''], [0] and [0.0]
    are false. *)
Definition truthy (v : option pyval) : bool :=
  match v with
  | None => false
  | Some (VStr s) => negb (bool_decide (s = EmptyString))
  | Some (VNum q) => negb (Qeq_bool q 0)
  end.

(** ** The metric set *)

Record Metrics := {
  ltv_cac_ratio : Q;
  payback_period : xnum;
  burn_multiple : xnum;
  efficiency_score : Q;
  growth_score : Q;
  market_score : Q;
  team_score : Q;
  traction_score : Q;
  risk_score : Q;
  overall_score : Q
}.

(** ** calculate_comprehensive_metrics, block by block *)

(** Unit Economics: [ltv_cac_ratio] and [payback_period]. *)
Definition unit_economics (data : gmap string pyval) : result pyexn (Q * xnum) :=
  c ← get data "cac" 0;
  if num_gt c 0 then
    ltv ← get data "ltv" 0;
    cac ← item data "cac";
    ratio ← py_div ltv cac;
    a ← get data "arr" 0;
    if num_gt a 0 then
      cac ← item data "cac";
      arr ← get data "arr" 0;
      customers ← get data "current_customers" 1;
      per_customer ← py_div (arr / 12) (py_max customers 1);
      payback ← py_div cac per_customer;
      mret (ratio, Fin payback)
    else mret (ratio, Inf)
  else mret (0, Inf).

(** Burn Multiple. *)
Definition burn_multiple_of (data : gmap string pyval) : result pyexn xnum :=
  b ← get data "burn_rate" 0;
  if num_gt b 0 then
    m ← get data "current_mrr" 0;
    if num_gt m 0 then
      burn_rate ← item data "burn_rate";
      current_mrr ← item data "current_mrr";
      let net_burn := burn_rate - current_mrr in
      if num_gt net_burn 0 then
        g ← get data "monthly_growth_rate" 0;
        if num_gt g 0 then
          current_mrr ← item data "current_mrr";
          monthly_growth_rate ← item data "monthly_growth_rate";
          bm ← py_div net_burn (current_mrr * monthly_growth_rate / 100);
          mret (Fin bm)
        else mret (Fin 0)
      else mret (Fin 0)
    else mret Inf
  else mret Inf.

(** Efficiency Score. *)
Definition efficiency_score_of (data : gmap string pyval) (ratio : Q) : result pyexn Q :=
  let ltv_cac_score := if num_gt ratio 0 then py_min 100 ((ratio / 3) * 50) else 0 in
  gross_margin ← get data "gross_margin" 0;
  let margin_score := gross_margin * 0.5 in
  mret (py_min 100 (ltv_cac_score + margin_score)).

(** Growth Score. *)
Definition growth_score_of (data : gmap string pyval) : result pyexn Q :=
  growth_rate ← get data "monthly_growth_rate" 0;
  if num_ge growth_rate 20 then mret 100
  else if num_ge growth_rate 10 then mret 80
  else if num_ge growth_rate 5 then mret 60
  else mret (growth_rate * 10).

(** Market Score. *)
Definition market_score_of (data : gmap string pyval) : result pyexn Q :=
  tam ← get data "tam" 0;
  let market_size_score :=
    if num_ge tam 10000 then 100
    else if num_ge tam 1000 then 80
    else if num_ge tam 100 then 60
    else 40 in
  capture_score ←
    (if num_gt tam 0 then
       s ← get data "som" 0;
       if num_gt s 0 then
         som ← item data "som";
         r ← py_div som tam;
         let capture_ratio := r * 100 in
         mret (py_min 100 (capture_ratio * 20))
       else mret 50
     else mret 50);
  mret ((market_size_score + capture_score) / 2).

(** Team Score. *)
Definition team_score_of (data : gmap string pyval) : result pyexn Q :=
  size ← get data "team_size" 0;
  let team_size_score := py_min 100 (size * 5) in
  technical ← get data "technical_team" 0;
  size1 ← get data "team_size" 1;
  r ← py_div technical (py_max size1 1);
  let technical_ratio := r * 100 in
  advisors ← get data "advisors_count" 0;
  let advisor_score := py_min 100 (advisors * 20) in
  mret ((team_size_score + technical_ratio + advisor_score) / 3).

(** Traction Score. *)
Definition traction_score_of (data : gmap string pyval) : result pyexn Q :=
  customers ← get data "current_customers" 0;
  let customer_score := py_min 100 (customers / 10) in
  arr ← get data "arr" 0;
  let revenue_score := py_min 100 ((arr / 100000) * 100) in
  raised ← get data "funding_raised" 0;
  let funding_score := py_min 100 ((raised / 1000000) * 50) in
  mret ((customer_score + revenue_score + funding_score) / 3).

(** Risk Score (higher is safer). *)
Definition risk_score_of (data : gmap string pyval) : result pyexn Q :=
  runway ← get data "runway_months" 0;
  let runway_score := py_min 100 ((runway / 18) * 100) in
  churn ← get data "churn_rate" 0;
  let churn_score := py_max 0 (100 - (churn * 10)) in
  mret ((runway_score + churn_score) / 2).

(** The [weights] dictionary of the overall score. *)
Record Weights := {
  w_efficiency : Q;
  w_growth : Q;
  w_market : Q;
  w_team : Q;
  w_traction : Q;
  w_risk : Q
}.

Definition weights : Weights := {|
  w_efficiency := 0.20;
  w_growth := 0.20;
  w_market := 0.15;
  w_team := 0.15;
  w_traction := 0.20;
  w_risk := 0.10
|}.

(** Overall Investment Score. *)
Definition overall_score_of (efficiency growth market team traction risk : Q) : Q :=
  efficiency * w_efficiency weights +
  growth * w_growth weights +
  market * w_market weights +
  team * w_team weights +
  traction * w_traction weights +
  risk * w_risk weights.

(** The body of the [try]. *)
Definition metrics_body (data : gmap string pyval) : result pyexn Metrics :=
  '(ratio, payback) ← unit_economics data;
  burn ← burn_multiple_of data;
  efficiency ← efficiency_score_of data ratio;
  growth ← growth_score_of data;
  market ← market_score_of data;
  team ← team_score_of data;
  traction ← traction_score_of data;
  risk ← risk_score_of data;
  mret {|
    ltv_cac_ratio := ratio;
    payback_period := payback;
    burn_multiple := burn;
    efficiency_score := efficiency;
    growth_score := growth;
    market_score := market;
    team_score := team;
    traction_score := traction;
    risk_score := risk;
    overall_score :=
      overall_score_of efficiency growth market team traction risk
  |}.

(** The dictionary of the [except] branch. *)
Definition error_metrics : Metrics := {|
  ltv_cac_ratio := 0;
  payback_period := Fin 0;
  burn_multiple := Fin 0;
  efficiency_score := 0;
  growth_score := 0;
  market_score := 0;
  team_score := 0;
  traction_score := 0;
  risk_score := 0;
  overall_score := 0
|}.

Definition calculate_comprehensive_metrics (data : gmap string pyval) : Metrics :=
  match metrics_body data with
  | Ok metrics => metrics
  | Raise _ => error_metrics
  end.

(** ** The recommendation list (submission handler, Recommendations
    Section) *)

(** The [issue] text of a recommendation is an f-string around one number;
    the number is kept, its rendering as decimal text is not modelled. *)
Inductive Issue :=
| LtvCacBelowBenchmark (ratio : Q)
| RunwayOnly (months : Q)
| GrossMarginBelowBenchmark (margin : Q)
| MonthlyGrowthRate (rate : Q)
| MonthlyChurnRate (rate : Q).

Record Recommendation := {
  area : string;
  issue : Issue;
  action : string
}.

(** The five [if ...: recommendations.append({...})] statements, in the
    order of the source. *)
Definition recommendations_of (metrics : Metrics) (form_data : gmap string pyval)
  : result pyexn (list Recommendation) :=
  let recommendations := [] in
  let recommendations :=
    if num_lt (ltv_cac_ratio metrics) 3 then
      recommendations ++ [{|
        area := "Unit Economics";
        issue := LtvCacBelowBenchmark (ltv_cac_ratio metrics);
        action := "Focus on improving customer retention and reducing acquisition costs"
      |}]
    else recommendations in
  runway_months ← item form_data "runway_months";
  let recommendations :=
    if num_lt runway_months 18 then
      recommendations ++ [{|
        area := "Financial Health";
        issue := RunwayOnly runway_months;
        action := "Extend runway to 18-24 months through fundraising or burn reduction"
      |}]
    else recommendations in
  gross_margin ← item form_data "gross_margin";
  let recommendations :=
    if num_lt gross_margin 70 then
      recommendations ++ [{|
        area := "Business Model";
        issue := GrossMarginBelowBenchmark gross_margin;
        action := "Optimize pricing strategy and reduce COGS to improve margins"
      |}]
    else recommendations in
  monthly_growth_rate ← item form_data "monthly_growth_rate";
  let recommendations :=
    if num_lt monthly_growth_rate 10 then
      recommendations ++ [{|
        area := "Growth";
        issue := MonthlyGrowthRate monthly_growth_rate;
        action := "Accelerate growth through improved sales/marketing efficiency"
      |}]
    else recommendations in
  churn_rate ← item form_data "churn_rate";
  let recommendations :=
    if num_gt churn_rate 5 then
      recommendations ++ [{|
        area := "Customer Retention";
        issue := MonthlyChurnRate churn_rate;
        action := "Implement customer success initiatives to reduce churn below 5%"
      |}]
    else recommendations in
  mret recommendations.

(** ** Required-field validation *)

Definition required_fields : list string :=
  ["company_name"; "problem_solution"; "market_info"; "business_model_desc";
   "uniqueness"; "team_experience"; "team_structure"; "funding_seeking";
   "use_of_funds"; "cac"; "ltv"; "burn_rate"; "runway_months";
   "competitors"; "competitive_advantage"; "customer_acquisition"; "other_risks"].

(** [[field for field in required_fields if not form_data.get(field)]]. *)
Definition missing_fields (form_data : gmap string pyval) : list string :=
  filter (λ field, ¬ truthy (form_data !! field)) required_fields.

(** ** Python string operations *)

(** [s.startswith(prefix)]. *)
Fixpoint startswith (s prefix : string) {struct prefix} : bool :=
  match prefix, s with
  | EmptyString, _ => true
  | String p prefix', String c s' => bool_decide (c = p) && startswith s' prefix'
  | String _ _, EmptyString => false
  end.

(** [s.endswith(suffix)]. *)
Fixpoint endswith (s suffix : string) : bool :=
  bool_decide (s = suffix) ||
  match s with
  | EmptyString => false
  | String _ s' => endswith s' suffix
  end.

(** [sub in s]. *)
Fixpoint occurs (sub s : string) : bool :=
  startswith s sub ||
  match s with
  | EmptyString => false
  | String _ s' => occurs sub s'
  end.

(** [s.find(sub)]: the lowest index where [sub] starts, or [-1]. *)
Fixpoint find_from (sub s : string) (i : Z) : Z :=
  if startswith s sub then i
  else match s with
       | EmptyString => (-1)%Z
       | String _ s' => find_from sub s' (i + 1)
       end.
Definition find (s sub : string) : Z := find_from sub s 0.

(** [s.rfind(sub)]: the highest index where [sub] starts, or [-1]. *)
Fixpoint rfind_from (sub s : string) (i : Z) : Z :=
  match s with
  | EmptyString => if startswith s sub then i else (-1)%Z
  | String _ s' =>
      let later := rfind_from sub s' (i + 1) in
      if bool_decide (later = (-1)%Z)
      then (if startswith s sub then i else (-1)%Z)
      else later
  end.
Definition rfind (s sub : string) : Z := rfind_from sub s 0.

Fixpoint drop_chars (n : nat) (s : string) : string :=
  match n, s with
  | O, _ => s
  | S n', String _ s' => drop_chars n' s'
  | S _, EmptyString => EmptyString
  end.

Fixpoint take_chars (n : nat) (s : string) : string :=
  match n, s with
  | O, _ => EmptyString
  | S n', String c s' => String c (take_chars n' s')
  | S _, EmptyString => EmptyString
  end.

(** A slice bound as Python resolves it: a negative index counts from the
    end, and the bound is clipped to [0, len(s)]. *)
Definition slice_index (s : string) (i : Z) : nat :=
  let n := Z.of_nat (String.length s) in
  Z.to_nat (if (i <? 0)%Z then Z.max 0 (i + n) else Z.min i n).

(** [s[i:]] and [s[:j]]. *)
Definition slice_from (s : string) (i : Z) : string := drop_chars (slice_index s i) s.
Definition slice_to (s : string) (j : Z) : string := take_chars (slice_index s j) s.

(** [c.isspace()] for the code points below 256. *)
Definition isspace (c : ascii) : bool :=
  let n := nat_of_ascii c in
  ((9 <=? n) && (n <=? 13) || (28 <=? n) && (n <=? 32) ||
   (n =? 133) || (n =? 160))%nat.

Fixpoint lstrip (s : string) : string :=
  match s with
  | EmptyString => EmptyString
  | String c s' => if isspace c then lstrip s' else s
  end.

Fixpoint rstrip (s : string) : string :=
  match s with
  | EmptyString => EmptyString
  | String c s' =>
      match rstrip s' with
      | EmptyString => if isspace c then EmptyString else String c EmptyString
      | r => String c r
      end
  end.

(** [s.strip()]. *)
Definition strip (s : string) : string := lstrip (rstrip s).

(** [s.split(sep)] for a non-empty [sep]: the pieces between the
    occurrences of [sep], found left to right without overlap.  [skip]
    counts the characters of a matched separator still to pass; a character
    outside a separator joins the first piece of what follows. *)
Fixpoint split_go (sep : string) (skip : nat) (s : string) : list string :=
  match s with
  | EmptyString => [EmptyString]
  | String c s' =>
      match skip with
      | S k => split_go sep k s'
      | O =>
          if startswith s sep
          then EmptyString :: split_go sep (String.length sep - 1) s'
          else match split_go sep O s' with
               | piece :: pieces => String c piece :: pieces
               | [] => [String c EmptyString]
               end
      end
  end.
Definition split (s sep : string) : list string := split_go sep O s.

(** [s.lower()] for the code points below 256. *)
Definition lower_char (c : ascii) : ascii :=
  let n := nat_of_ascii c in
  if ((65 <=? n) && (n <=? 90) || (192 <=? n) && (n <=? 222) && negb (n =? 215))%nat
  then ascii_of_nat (n + 32) else c.

Fixpoint lower (s : string) : string :=
  match s with
  | EmptyString => EmptyString
  | String c s' => String (lower_char c) (lower s')
  end.

(** Whitespace only: [s.strip() == '']. *)
Fixpoint blank (s : string) : bool :=
  match s with
  | EmptyString => true
  | String c s' => isspace c && blank s'
  end.

(** No occurrence of [sep] starts inside [a] when [a] is followed by
    [rest] (an auxiliary notion for the facts about [split]). *)
Fixpoint unmatched (sep a rest : string) : Prop :=
  match a with
  | EmptyString => True
  | String _ a' => startswith (a +:+ rest) sep = false ∧ unmatched sep a' rest
  end.

(** The double quote and the line feed, as one-character strings. *)
Definition dquote : string := String "034" EmptyString.
Definition newline : string := String "010" EmptyString.

(** ** JSON values *)

(** What [json.loads] returns: [None], [bool], [int], [float] (with the
    [NaN] and [Infinity] literals Python accepts), [str], [list], [dict].
    A [dict] keeps its keys in insertion order. *)
Inductive json :=
| JNull
| JBool (b : bool)
| JInt (z : Z)
| JFloat (q : Q)
| JNaN
| JInfinity (negative : bool)
| JStr (s : string)
| JArr (items : list json)
| JObj (members : list (string * json)).

(** [d[k] = v] on a [dict]: the value is replaced where the key already
    is, and added at the end otherwise. *)
Fixpoint dict_set (members : list (string * json)) (k : string) (v : json)
  : list (string * json) :=
  match members with
  | [] => [(k, v)]
  | (k', v') :: rest =>
      if bool_decide (k' = k) then (k', v) :: rest else (k', v') :: dict_set rest k v
  end.

(** [d.get(k)]. *)
Fixpoint dict_get (members : list (string * json)) (k : string) : option json :=
  match members with
  | [] => None
  | (k', v) :: rest => if bool_decide (k' = k) then Some v else dict_get rest k
  end.

(** [v.get(k)] on a decoded value that is a [dict]. *)
Definition json_get (v : json) (k : string) : option json :=
  match v with
  | JObj members => dict_get members k
  | _ => None
  end.

(** ** A model of json.loads

    [json.loads] belongs to the Python standard library.  [loads] follows its
    grammar (RFC 8259 plus the literals [NaN], [Infinity], [-Infinity]) on
    texts over the code points below 256; an escape [\uXXXX] naming a code
    point outside that alphabet is reported as [None].  The interpreter's
    recursion limit is not modelled. *)
Module Json.

Definition is_ws (c : ascii) : bool :=
  let n := nat_of_ascii c in ((n =? 32) || (n =? 9) || (n =? 10) || (n =? 13))%nat.

Fixpoint skip_ws (s : string) : string :=
  match s with
  | String c s' => if is_ws c then skip_ws s' else s
  | EmptyString => s
  end.

Definition digit (c : ascii) : option Z :=
  let n := nat_of_ascii c in
  if ((48 <=? n) && (n <=? 57))%nat then Some (Z.of_nat n - 48)%Z else None.

Definition hex_digit (c : ascii) : option N :=
  let n := nat_of_ascii c in
  if ((48 <=? n) && (n <=? 57))%nat then Some (N.of_nat (n - 48))
  else if ((65 <=? n) && (n <=? 70))%nat then Some (N.of_nat (n - 55))
  else if ((97 <=? n) && (n <=? 102))%nat then Some (N.of_nat (n - 87))
  else None.

Definition hex4 (a b c d : ascii) : option N :=
  a ← hex_digit a; b ← hex_digit b; c ← hex_digit c; d ← hex_digit d;
  Some (((a * 16 + b) * 16 + c) * 16 + d)%N.

(** The characters of a string literal after its opening quote, up to the
    closing quote: the decoded text and what follows the literal. *)
Fixpoint scan_string (s : string) : option (string * string) :=
  match s with
  | EmptyString => None
  | String "034" rest => Some (EmptyString, rest)
  | String "\" (String e rest) =>
      let plain (c : ascii) :=
        '(text, rest') ← scan_string rest; Some (String c text, rest') in
      match e with
      | "034"%char => plain "034"%char
      | "\"%char => plain "\"%char
      | "/"%char => plain "/"%char
      | "b"%char => plain "008"%char
      | "f"%char => plain "012"%char
      | "n"%char => plain "010"%char
      | "r"%char => plain "013"%char
      | "t"%char => plain "009"%char
      | "u"%char =>
          match rest with
          | String a (String b (String c (String d rest'))) =>
              n ← hex4 a b c d;
              if (n <? 256)%N
              then '(text, rest'') ← scan_string rest';
                   Some (String (ascii_of_N n) text, rest'')
              else None
          | _ => None
          end
      | _ => None
      end
  | String "\" EmptyString => None
  | String c rest =>
      if (nat_of_ascii c <? 32)%nat then None
      else '(text, rest') ← scan_string rest; Some (String c text, rest')
  end.

(** A run of decimal digits: its value, its length and the rest. *)
Fixpoint digits (s : string) (value : Z) (count : nat) : Z * nat * string :=
  match s with
  | String c s' =>
      match digit c with
      | Some d => digits s' (value * 10 + d)%Z (S count)
      | None => (value, count, s)
      end
  | EmptyString => (value, count, s)
  end.

(** The integer part [0 | [1-9][0-9]*]. *)
Definition scan_int (s : string) : option (Z * string) :=
  match s with
  | String "0" rest => Some (0%Z, rest)
  | _ => let '(v, n, rest) := digits s 0 0 in
         if (n =? 0)%nat then None else Some (v, rest)
  end.

(** The optional fraction [\.[0-9]+]. *)
Definition scan_frac (s : string) : option (Q * string) :=
  match s with
  | String "." rest =>
      let '(v, n, rest') := digits rest 0 0 in
      if (n =? 0)%nat then None else Some (inject_Z v / inject_Z (10 ^ Z.of_nat n), rest')
  | _ => None
  end.

(** The optional exponent [[eE][-+]?[0-9]+]. *)
Definition scan_exp (s : string) : option (Z * string) :=
  let unsigned (sign : Z) (rest : string) :=
    let '(v, n, rest') := digits rest 0 0 in
    if (n =? 0)%nat then None else Some ((sign * v)%Z, rest') in
  match s with
  | String e rest =>
      if bool_decide (e = "e"%char) || bool_decide (e = "E"%char) then
        match rest with
        | String "-" rest' => unsigned (-1)%Z rest'
        | String "+" rest' => unsigned 1%Z rest'
        | _ => unsigned 1%Z rest
        end
      else None
  | EmptyString => None
  end.

Definition scan_number (s : string) : option (json * string) :=
  let '(negative, body) :=
    match s with String "-" rest => (true, rest) | _ => (false, s) end in
  '(int, rest) ← scan_int body;
  let sign : Z := if negative then (-1)%Z else 1%Z in
  match scan_frac rest, scan_exp rest with
  | None, None => Some (JInt (sign * int), rest)
  | Some (frac, rest'), _ =>
      match scan_exp rest' with
      | Some (e, rest'') =>
          Some (JFloat (inject_Z sign * (inject_Z int + frac) * (10 ^ e)), rest'')
      | None => Some (JFloat (inject_Z sign * (inject_Z int + frac)), rest')
      end
  | None, Some (e, rest') =>
      Some (JFloat (inject_Z sign * inject_Z int * (10 ^ e)), rest')
  end.

(** One value at the head of [s], and what follows it. *)
Fixpoint scan_value (fuel : nat) (s : string) : option (json * string) :=
  match fuel with
  | O => None
  | S fuel' =>
      match s with
      | String "034" rest => '(text, rest') ← scan_string rest; Some (JStr text, rest')
      | String "{" rest =>
          match skip_ws rest with
          | String "}" rest' => Some (JObj [], rest')
          | rest' => scan_members fuel' rest' []
          end
      | String "[" rest =>
          match skip_ws rest with
          | String "]" rest' => Some (JArr [], rest')
          | rest' => scan_items fuel' rest' []
          end
      | _ =>
          if startswith s "null" then Some (JNull, drop_chars 4 s)
          else if startswith s "true" then Some (JBool true, drop_chars 4 s)
          else if startswith s "false" then Some (JBool false, drop_chars 5 s)
          else if startswith s "NaN" then Some (JNaN, drop_chars 3 s)
          else if startswith s "Infinity" then Some (JInfinity false, drop_chars 8 s)
          else if startswith s "-Infinity" then Some (JInfinity true, drop_chars 9 s)
          else scan_number s
      end
  end
(** The members of an object from a key on, [members] being those read. *)
with scan_members (fuel : nat) (s : string) (members : list (string * json))
  : option (json * string) :=
  match fuel with
  | O => None
  | S fuel' =>
      match s with
      | String "034" rest =>
          '(key, rest) ← scan_string rest;
          match skip_ws rest with
          | String ":" rest =>
              '(value, rest) ← scan_value fuel' (skip_ws rest);
              let members := dict_set members key value in
              match skip_ws rest with
              | String "}" rest => Some (JObj members, rest)
              | String "," rest => scan_members fuel' (skip_ws rest) members
              | _ => None
              end
          | _ => None
          end
      | _ => None
      end
  end
(** The items of an array from a value on, [items] being those read. *)
with scan_items (fuel : nat) (s : string) (items : list json)
  : option (json * string) :=
  match fuel with
  | O => None
  | S fuel' =>
      '(value, rest) ← scan_value fuel' s;
      let items := items ++ [value] in
      match skip_ws rest with
      | String "]" rest => Some (JArr items, rest)
      | String "," rest => scan_items fuel' (skip_ws rest) items
      | _ => None
      end
  end.

(** [json.loads(s)]: one value between optional whitespace; [None] stands
    for [JSONDecodeError]. *)
Definition loads (s : string) : option json :=
  '(value, rest) ← scan_value (S (String.length s)) (skip_ws s);
  match skip_ws rest with
  | EmptyString => Some value
  | _ => None
  end.

End Json.


(** ** generate_ai_insights *)

(** The dictionary with the one key [error]. *)
Definition error_record (message : string) : json :=
  JObj [("error", JStr message)].

(** The dictionary returned when [json.loads] raises [JSONDecodeError]. *)
Definition fallback_insights : json :=
  JObj [
    ("error", JStr "JSON parsing failed");
    ("investment_thesis", JStr "Unable to parse AI response. Please try again.");
    ("investment_recommendation", JStr "HOLD");
    ("valuation_assessment", JStr "Analysis incomplete");
    ("key_strengths",
      JArr [JStr "Data provided"; JStr "Comprehensive information";
            JStr "Clear metrics"; JStr "Established team"]);
    ("key_concerns",
      JArr [JStr "Technical analysis error"; JStr "Please retry";
            JStr "Consider manual review"; JStr "System processing issue"]);
    ("due_diligence_priorities",
      JArr [JStr "Retry analysis"; JStr "Manual review"; JStr "Verify data"]);
    ("growth_potential", JStr "Requires reanalysis");
    ("team_assessment", JStr "Team information provided");
    ("market_timing", JStr "Market analysis pending");
    ("competitive_position", JStr "Competitive data available");
    ("financial_health", JStr "Financial metrics provided");
    ("risk_assessment", JStr "MEDIUM - Analysis incomplete");
    ("recommended_terms", JStr "Rerun analysis for recommendations");
    ("post_investment_support",
      JArr [JStr "Technical review"; JStr "Strategic planning"; JStr "Market analysis"]);
    ("comparable_exits", JStr "Data pending");
    ("investment_score", JInt 50)
  ].

(** The keys of the structure the prompt asks the model for. *)
Definition schema_fields : list string :=
  ["investment_thesis"; "investment_recommendation"; "valuation_assessment";
   "key_strengths"; "key_concerns"; "due_diligence_priorities";
   "growth_potential"; "team_assessment"; "market_timing";
   "competitive_position"; "financial_health"; "risk_assessment";
   "recommended_terms"; "post_investment_support"; "comparable_exits";
   "investment_score"].

(** In this function an exception is seen through [str(e)] only, so it is
    represented by that message. *)

(** [pieces[i]]. *)
Definition piece (pieces : list string) (i : nat) : result string string :=
  match pieces !! i with
  | Some p => Ok p
  | None => Raise "list index out of range"
  end.

(** Remove markdown code blocks if present. *)
Definition remove_code_blocks (response_text : string) : result string string :=
  if occurs "```json" response_text then
    after ← piece (split response_text "```json") 1;
    inner ← piece (split after "```") 0;
    mret (strip inner)
  else if occurs "```" response_text then
    after ← piece (split response_text "```") 1;
    inner ← piece (split after "```") 0;
    mret (strip inner)
  else mret response_text.

(** Remove any non-JSON content before the first [{]. *)
Definition remove_before_first_brace (response_text : string) : string :=
  if negb (startswith response_text "{") then
    let start := find response_text "{" in
    if negb (bool_decide (start = (-1)%Z)) then slice_from response_text start
    else response_text
  else response_text.

(** Remove any non-JSON content after the last [}]. *)
Definition remove_after_last_brace (response_text : string) : string :=
  if endswith response_text "}" then
    let end_ := rfind response_text "}" in
    slice_to response_text (end_ + 1)
  else response_text.

(** The three clean-up steps in sequence. *)
Definition clean_response (response_text : string) : result string string :=
  response_text ← remove_code_blocks response_text;
  let response_text := remove_before_first_brace response_text in
  mret (remove_after_last_brace response_text).

(** The outer [except Exception as e] of [generate_ai_insights]. *)
Definition analysis_failure (error_msg : string) : json :=
  if occurs "api_key" (lower error_msg) then
    error_record "Invalid API key. Please check your OpenAI API key and try again."
  else if occurs "rate" (lower error_msg) then
    error_record "API rate limit reached. Please wait a moment and try again."
  else error_record ("AI analysis failed: " +:+ error_msg).

(** What reaches the OpenAI library. *)
Inductive Call :=
| ClientConstructed (api_key : string)
| ChatCompletionRequested (api_key : string).

(** [x in v] for a decoded JSON value [v]: a key of a [dict], an item of a
    [list], a substring of a [str]; [TypeError] otherwise. *)
Definition contains (x : string) (v : json) : result pyexn bool :=
  match v with
  | JObj members => Ok (bool_decide (is_Some (dict_get members x)))
  | JArr items =>
      Ok (existsb (λ i, match i with JStr s => bool_decide (s = x) | _ => false end) items)
  | JStr s => Ok (occurs x s)
  | _ => Raise TypeError
  end.

(** Truth value of a decoded JSON value. *)
Definition json_truthy (v : json) : bool :=
  match v with
  | JNull => false
  | JBool b => b
  | JInt z => negb (z =? 0)%Z
  | JFloat q => negb (Qeq_bool q 0)
  | JNaN | JInfinity _ => true
  | JStr s => negb (bool_decide (s = EmptyString))
  | JArr items => negb (bool_decide (items = []))
  | JObj members => negb (bool_decide (members = []))
  end.

(** [st.session_state]. *)
Inductive Mode := Light | Pro.

Record SessionState := {
  mode : Mode;
  api_key : string
}.

(** What one submission produces. *)
Inductive Outcome :=
| MissingFields (fields : list string)
| Analysed (metrics : Metrics) (ai_insights : json)
           (recommendations : list Recommendation)
| UnexpectedError.

Section Collaborators.

(** [OpenAI(api_key=...)]: returns a client or raises. *)
Variable OpenAI : string → result string ().

(** [client.chat.completions.create(...)] followed by
    [response.choices[0].message.content]: the prompt is formatted from
    [data]; the content may be [None]. *)
Variable chat_completions_create :
  string → gmap string pyval → result string (option string).

(** [json.loads]: [None] stands for [JSONDecodeError]. *)
Variable json_loads : string → option json.

(** The [st.*] calls that render the insights in the handler: [false]
    when one of them raises. *)
Variable render_insights : json → bool.

(** The client, the request and [content.strip()]. *)
Definition request_insights (data : gmap string pyval) (api_key : string)
  : result string string * list Call :=
  match OpenAI api_key with
  | Raise e => (Raise e, [ClientConstructed api_key])
  | Ok _ =>
      (match chat_completions_create api_key data with
       | Raise e => Raise e
       | Ok None => Raise "'NoneType' object has no attribute 'strip'"
       | Ok (Some content) => Ok (strip content)
       end,
       [ClientConstructed api_key; ChatCompletionRequested api_key])
  end.

(** The value returned, and the calls made to the OpenAI library. *)
Definition generate_ai_insights (data : gmap string pyval) (api_key : string)
  : json * list Call :=
  if bool_decide (api_key = EmptyString) then
    (error_record "Please provide an OpenAI API key for Pro mode analysis.", [])
  else if negb (startswith api_key "sk-") then
    (error_record "Invalid API key format. OpenAI API keys should start with 'sk-'", [])
  else
    let '(response, calls) := request_insights data api_key in
    (match response ≫= clean_response with
     | Ok response_text =>
         match json_loads response_text with
         | Some insights => insights
         | None => fallback_insights
         end
     | Raise error_msg => analysis_failure error_msg
     end, calls).

(** Pro Mode AI Insights in the handler: the value of [ai_insights] after
    the block.  The call is made in Pro mode with a non-empty key; a result
    with ['error' in ai_insights], or an exception in the block, leaves an
    empty dictionary. *)
Definition checked_insights (session : SessionState) (form_data : gmap string pyval)
  : json * list Call :=
  match mode session with
  | Pro =>
      if negb (bool_decide (api_key session = EmptyString)) then
        let '(ai_insights, calls) := generate_ai_insights form_data (api_key session) in
        (match contains "error" ai_insights with
         | Ok true => JObj []
         | Ok false => if render_insights ai_insights then ai_insights else JObj []
         | Raise _ => JObj []
         end, calls)
      else (JObj [], [])
  | Light => (JObj [], [])
  end.

(** The [ai_insights] argument the handler gives [generate_pdf_report]:
    [ai_insights if mode == 'Pro' and 'error' not in ai_insights else None]. *)
Definition pdf_argument (session : SessionState) (ai_insights : json)
  : result pyexn (option json) :=
  match mode session with
  | Pro =>
      has_error ← contains "error" ai_insights;
      mret (if negb has_error then Some ai_insights else None)
  | Light => mret None
  end.

(** The guard of the AI section of [generate_pdf_report]:
    [if ai_insights and 'error' not in ai_insights]. *)
Definition pdf_ai_section (ai_insights : option json) : result pyexn bool :=
  match ai_insights with
  | None => mret false
  | Some v =>
      if json_truthy v then
        has_error ← contains "error" v; mret (negb has_error)
      else mret false
  end.

(** Process form submission, from the validation on. *)
Definition process_submission (session : SessionState) (form_data : gmap string pyval)
  : Outcome * list Call :=
  let missing := missing_fields form_data in
  if negb (bool_decide (missing = [])) then (MissingFields missing, [])
  else
    let metrics := calculate_comprehensive_metrics form_data in
    let '(ai_insights, calls) := checked_insights session form_data in
    match recommendations_of metrics form_data with
    | Ok recommendations => (Analysed metrics ai_insights recommendations, calls)
    | Raise _ => (UnexpectedError, calls)
    end.

End Collaborators.

(** ** Proposals *)

(** The keys [calculate_comprehensive_metrics] and the recommendation
    checks read as numbers. *)
Definition numeric_fields : list string :=
  ["cac"; "ltv"; "arr"; "current_customers"; "burn_rate"; "current_mrr";
   "monthly_growth_rate"; "gross_margin"; "tam"; "som"; "team_size";
   "technical_team"; "advisors_count"; "funding_raised"; "runway_months";
   "churn_rate"].

(** No numeric field holds text. *)
Definition numeric (data : gmap string pyval) : Prop :=
  ∀ k s, k ∈ numeric_fields → data !! k ≠ Some (VStr s).

(** No numeric field is negative (the form widgets have [min_value=0]). *)
Definition nonneg (data : gmap string pyval) : Prop :=
  ∀ k q, k ∈ numeric_fields → data !! k = Some (VNum q) → 0 <= q.

(** Every numeric field is present and holds a number, as in the
    [form_data] literal of the handler. *)
Definition form_built (form_data : gmap string pyval) : Prop :=
  ∀ k, k ∈ numeric_fields → ∃ q, form_data !! k = Some (VNum q).

(** The number under [k], [d] when the key is absent: the value of
    [data.get(k, d)] on a [numeric] proposal. *)
Definition field_or (data : gmap string pyval) (k : string) (d : Q) : Q :=
  match data !! k with
  | Some (VNum q) => q
  | _ => d
  end.
Abbreviation field data k := (field_or data k 0).

(** ** Sample data *)

(** A submission: the required fields and the numeric fields. *)
Definition sample_form : gmap string pyval :=
  list_to_map [
    ("company_name", VStr "Acme Analytics");
    ("problem_solution", VStr "Reporting takes analysts days; we automate it.");
    ("market_info", VStr "Mid-market finance teams");
    ("tam", VNum 5000); ("sam", VNum 800); ("som", VNum 0);
    ("business_model_desc", VStr "SaaS subscription");
    ("uniqueness", VStr "Proprietary connectors");
    ("team_experience", VStr "Two prior exits");
    ("team_structure", VStr "Engineering, sales, success");
    ("team_size", VNum 10); ("technical_team", VNum 6); ("advisors_count", VNum 2);
    ("funding_raised", VNum 500000); ("funding_seeking", VNum 1000000);
    ("use_of_funds", VStr "Hiring and go-to-market");
    ("current_mrr", VNum 20000); ("arr", VNum 240000);
    ("burn_rate", VNum 50000); ("runway_months", VNum 12);
    ("gross_margin", VNum 50); ("operating_margin", VNum (-50));
    ("cac", VNum 100); ("ltv", VNum 400);
    ("competitors", VStr "Incumbent BI suites");
    ("competitive_advantage", VStr "Time to value");
    ("customer_acquisition", VStr "Outbound and partners");
    ("current_customers", VNum 40);
    ("monthly_growth_rate", VNum 12); ("churn_rate", VNum 6);
    ("other_risks", VStr "Key-person dependency")
  ].

(** The same submission with one employee and forty technical team
    members: the form bounds neither field by the other. *)
Definition lopsided_form : gmap string pyval :=
  <["technical_team" := VNum 40]> (<["team_size" := VNum 1]> sample_form).

(** The same submission without acquisition cost. *)
Definition no_cac_form : gmap string pyval := <["cac" := VNum 0]> sample_form.

(** The same submission without recurring revenue. *)
Definition no_arr_form : gmap string pyval := <["arr" := VNum 0]> sample_form.

(** The same submission with flat growth, and without monthly revenue. *)
Definition flat_growth_form : gmap string pyval :=
  <["monthly_growth_rate" := VNum 0]> sample_form.

Definition no_mrr_form : gmap string pyval := <["current_mrr" := VNum 0]> sample_form.

(** ** Sample collaborators *)

(** A client that is always constructed, and a model that always answers
    [content]. *)
Definition any_client : string → result string () := λ _, Ok ().

Definition answers (content : string)
  : string → gmap string pyval → result string (option string) :=
  λ _ _, Ok (Some content).

(** A collaborator that must not be reached. *)
Definition refuses_client : string → result string () :=
  λ _, Raise "unexpected call".

Definition refuses_chat : string → gmap string pyval → result string (option string) :=
  λ _ _, Raise "unexpected call".

Definition pro_session : SessionState := {| mode := Pro; api_key := "sk-test" |}.

(** ** Sample answers of the model *)

(** A well-formed object as JSON text, and its value. *)
Definition score_text : string :=
  "{" +:+ dquote +:+ "investment_recommendation" +:+ dquote +:+ ": " +:+
  dquote +:+ "BUY" +:+ dquote +:+ ", " +:+
  dquote +:+ "investment_score" +:+ dquote +:+ ": 85}".

Definition score_object : json :=
  JObj [("investment_recommendation", JStr "BUY"); ("investment_score", JInt 85)].

(** The object in a [json] fence between two sentences. *)
Definition score_answer : string :=
  "Here is the analysis:" +:+ newline +:+ "```" +:+ "json" +:+ newline +:+
  score_text +:+ newline +:+ "```" +:+ newline +:+ "Let me know if you need more.".

(** The same in a fence without language tag. *)
Definition score_answer_bare : string :=
  "Here is the analysis:" +:+ newline +:+ "```" +:+ "" +:+ newline +:+
  score_text +:+ newline +:+ "```" +:+ newline +:+ "Let me know if you need more.".

(** A well-formed object one of whose strings holds a code fence. *)
Definition note_text : string :=
  "{" +:+ dquote +:+ "recommended_terms" +:+ dquote +:+ ": " +:+
  dquote +:+ "quote clauses in ``` fences" +:+ dquote +:+ "}".

Definition note_object : json :=
  JObj [("recommended_terms", JStr "quote clauses in ``` fences")].

Definition note_answer : string :=
  "Here is the analysis:" +:+ newline +:+ "```" +:+ "json" +:+ newline +:+
  note_text +:+ newline +:+ "```" +:+ newline +:+ "Let me know if you need more.".

(** An answer cut off in the middle of a string. *)
Definition truncated_answer : string :=
  "{" +:+ dquote +:+ "investment_thesis" +:+ dquote +:+ ": " +:+
  dquote +:+ "A strong team in a growing mar".

(** ** The status column of the Financial Analysis table (handler) *)

(** [x <= b] where [x] may be [float('inf')]. *)
Definition xnum_le (x : xnum) (b : Q) : bool :=
  match x with
  | Fin q => Qle_bool q b
  | Inf => false
  end.

(** The entries of ['Status'], [true] for the check mark: LTV/CAC Ratio,
    Burn Multiple, Runway, Gross Margin, Monthly Growth, Churn Rate.  The
    four form fields are indexed in this order when the table is built. *)
Definition financial_status (metrics : Metrics) (form_data : gmap string pyval)
  : result pyexn (list bool) :=
  runway_months ← item form_data "runway_months";
  gross_margin ← item form_data "gross_margin";
  monthly_growth_rate ← item form_data "monthly_growth_rate";
  churn_rate ← item form_data "churn_rate";
  mret [num_ge (ltv_cac_ratio metrics) 3;
        xnum_le (burn_multiple metrics) 2;
        num_ge runway_months 18;
        num_ge gross_margin 70;
        num_ge monthly_growth_rate 10;
        Qle_bool churn_rate 5].

(** ** URL detection *)

(** One character of the repeated group of [url_pattern]:
    [[a-zA-Z]], [[0-9]], [[$-_@.&+]] (the range from [$] to [_], and four
    characters), [[!*\\(\\),]] (in the raw string: [!], [*], a backslash,
    the two parentheses and the comma).  The fifth alternative, a percent
    sign and two hexadecimal digits, is never tried: the third one takes the
    percent sign. *)
Definition url_char (c : ascii) : bool :=
  let n := nat_of_ascii c in
  ((65 <=? n) && (n <=? 90) || (97 <=? n) && (n <=? 122)
   || (48 <=? n) && (n <=? 57)
   || (36 <=? n) && (n <=? 95) || (n =? 64) || (n =? 46) || (n =? 38) || (n =? 43)
   || (n =? 33) || (n =? 42) || (n =? 92) || (n =? 40) || (n =? 41) || (n =? 44))%nat.

(** The longest run of [url_char] at the head of [s]. *)
Fixpoint url_run (s : string) : nat :=
  match s with
  | String c s' => if url_char c then S (url_run s') else O
  | EmptyString => O
  end.

(** A match of [url_pattern] at the head of [s]: its length.  The pattern
    is [http], an optional [s], [://] and one or more [url_char]. *)
Definition match_url (s : string) : option nat :=
  let after (scheme : nat) :=
    let n := url_run (drop_chars scheme s) in
    if (n =? 0)%nat then None else Some (scheme + n)%nat in
  if startswith s "https://" then after 8%nat
  else if startswith s "http://" then after 7%nat
  else None.

(** [url_pattern.search(text) is not None]. *)
Fixpoint is_valid_url (text : string) : bool :=
  bool_decide (is_Some (match_url text)) ||
  match text with
  | String _ text' => is_valid_url text'
  | EmptyString => false
  end.

(** [url_pattern.findall(text)]: the matches from left to right, without
    overlap.  [skip] counts the characters of a match still to pass. *)
Fixpoint findall_go (skip : nat) (text : string) : list string :=
  match text with
  | EmptyString => []
  | String _ text' =>
      match skip with
      | S k => findall_go k text'
      | O =>
          match match_url text with
          | Some n => take_chars n text :: findall_go (n - 1) text'
          | None => findall_go O text'
          end
      end
  end.
Definition extract_urls_from_text (text : string) : list string := findall_go O text.

(** The fields of [url_fields_to_check]. *)
Definition url_fields_to_check : list string :=
  ["problem_solution"; "market_info"; "business_model_desc";
   "uniqueness"; "progress"; "team_experience"; "competitors";
   "competitive_advantage"; "customer_acquisition"].

Section UrlContent.

(** [fetch_url_content]: it catches every exception of the request and
    returns a text in all cases. *)
Variable fetch_url_content : string → string.

(** The text returned, and the URLs fetched, in order. *)
Definition process_text_with_urls (text : string) : string * list string :=
  if bool_decide (text = EmptyString) || negb (is_valid_url text) then (text, [])
  else
    let urls := extract_urls_from_text text in
    if bool_decide (urls = []) then (text, [])
    else
      let combined_content :=
        text +:+ newline +:+ newline +:+ "--- Additional Content from URLs ---" +:+ newline in
      (foldl (λ combined_content url,
                combined_content +:+ newline +:+ fetch_url_content url +:+ newline)
             combined_content (take 3 urls),
       take 3 urls).

(** One round of the loop over [url_fields_to_check]: a field that is
    present, true and a text with a URL is replaced.  ([is_valid_url] returns
    [False] on a value that is not a text.) *)
Definition enrich_field (state : gmap string pyval * list string) (field : string)
  : gmap string pyval * list string :=
  let '(form_data, fetched) := state in
  match form_data !! field with
  | Some (VStr original_content) =>
      if truthy (Some (VStr original_content)) && is_valid_url original_content then
        let '(enhanced_content, urls) := process_text_with_urls original_content in
        (<[field := VStr enhanced_content]> form_data, fetched ++ urls)
      else state
  | _ => state
  end.

(** URL Content Detection in the handler (Pro mode only): the form data
    after the loop, and the URLs fetched. *)
Definition enrich_form (session : SessionState) (form_data : gmap string pyval)
  : gmap string pyval * list string :=
  match mode session with
  | Pro => foldl enrich_field (form_data, []) url_fields_to_check
  | Light => (form_data, [])
  end.

End UrlContent.

(** ** clean_markdown *)

(** The texts cleaned for display are answers of the model and hold
    characters beyond the Latin ones (the bullet below): here a text is the
    list of its code points. *)
Definition points (s : string) : list N := N_of_ascii <$> list_ascii_of_string s.

Definition star : N := 42.
Definition underscore : N := 95.
Definition bullet : N := 8226.
Definition hyphen : N := 45.
Definition period : N := 46.
Definition space : N := 32.

(** [s.replace(old, new)] for a one-character [old]. *)
Fixpoint replace (s : list N) (old : N) (new : list N) : list N :=
  match s with
  | [] => []
  | c :: s' =>
      if bool_decide (c = old) then new ++ replace s' old new
      else c :: replace s' old new
  end.

(** [[A-Z]]. *)
Definition is_upper (c : N) : bool := ((65 <=? c) && (c <=? 90))%N.

(** [re.sub(r'\.([A-Z])', r'. \1', text)]: a space is put between a period
    and the capital letter that follows it; the search resumes after the
    letter. *)
Fixpoint space_after_periods (text : list N) : list N :=
  match text with
  | [] => []
  | c :: rest =>
      match rest with
      | d :: rest' =>
          if bool_decide (c = period) && is_upper d
          then period :: space :: d :: space_after_periods rest'
          else c :: space_after_periods rest
      | [] => [c]
      end
  end.

Definition clean_markdown (text : list N) : list N :=
  if bool_decide (text = []) then text
  else
    let text := replace (replace text star []) underscore [] in
    let text := replace text bullet [hyphen] in
    space_after_periods text.

(** No period is followed by a capital letter. *)
Fixpoint spaced (text : list N) : bool :=
  match text with
  | [] => true
  | c :: rest =>
      match rest with
      | d :: _ => negb (bool_decide (c = period) && is_upper d) && spaced rest
      | [] => true
      end
  end.


(** ** More sample data *)

(** The sample submission with a text where the gross margin belongs. *)
Definition text_margin_form : gmap string pyval :=
  <["gross_margin" := VStr "fifty"]> sample_form.

(** The sample submission without the churn rate entry. *)
Definition no_churn_key_form : gmap string pyval := delete "churn_rate" sample_form.

(** The sample submission with a faster growth. *)
Definition faster_growth_form : gmap string pyval :=
  <["monthly_growth_rate" := VNum 25]> sample_form.

(** A session in Light mode, and a Pro session without key. *)
Definition light_session : SessionState := {| mode := Light; api_key := "sk-test" |}.

Definition keyless_session : SessionState := {| mode := Pro; api_key := "" |}.

(** * Properties *)

(** ** Comparisons, minimum and maximum *)

Lemma num_gt_true a b : num_gt a b = true ↔ b < a.
Proof.
  unfold num_gt. rewrite negb_true_iff, <- not_true_iff_false, Qle_bool_iff.
  split; [apply Qnot_le_lt | apply Qlt_not_le].
Qed.

Lemma num_gt_false a b : num_gt a b = false ↔ a <= b.
Proof. unfold num_gt. rewrite negb_false_iff. apply Qle_bool_iff. Qed.

Lemma num_ge_true a b : num_ge a b = true ↔ b <= a.
Proof. apply Qle_bool_iff. Qed.

Lemma num_ge_false a b : num_ge a b = false ↔ a < b.
Proof.
  unfold num_ge. rewrite <- not_true_iff_false, Qle_bool_iff.
  split; [apply Qnot_le_lt | apply Qlt_not_le].
Qed.

Lemma num_lt_true a b : num_lt a b = true ↔ a < b.
Proof. apply num_gt_true. Qed.

Lemma num_lt_false a b : num_lt a b = false ↔ b <= a.
Proof. apply num_gt_false. Qed.

Lemma py_min_spec a b : (b < a ∧ py_min a b = b) ∨ (a <= b ∧ py_min a b = a).
Proof.
  unfold py_min. destruct (num_lt b a) eqn:E.
  - left. by apply num_lt_true in E.
  - right. by apply num_lt_false in E.
Qed.

Lemma py_max_spec a b : (a < b ∧ py_max a b = b) ∨ (b <= a ∧ py_max a b = a).
Proof.
  unfold py_max. destruct (num_gt b a) eqn:E.
  - left. by apply num_gt_true in E.
  - right. by apply num_gt_false in E.
Qed.

Lemma Qpos_nonzero b : 0 < b → ¬ b == 0.
Proof. intros H E. rewrite E in H. by apply Qlt_irrefl in H. Qed.

Lemma Qdiv_pos a b : 0 < a → 0 < b → 0 < a / b.
Proof. intros Ha Hb. apply Qlt_shift_div_l; [done|]. by rewrite Qmult_0_l. Qed.

Lemma Qdiv_nonneg a b : 0 <= a → 0 < b → 0 <= a / b.
Proof. intros Ha Hb. apply Qle_shift_div_l; [done|]. by rewrite Qmult_0_l. Qed.

Lemma Qmult_pos a b : 0 < a → 0 < b → 0 < a * b.
Proof. intros Ha Hb. nra. Qed.

Lemma Qdiv_literal x n d : x / (Zpos n # d) = x * (Zpos d # n).
Proof. reflexivity. Qed.

Lemma py_div_ok a b : ¬ b == 0 → py_div a b = Ok (a / b).
Proof.
  intros Hb. unfold py_div. destruct (Qeq_bool b 0) eqn:E; [|done].
  by apply Qeq_bool_iff in E.
Qed.

(** ** Reading a proposal *)

Lemma form_built_numeric data : form_built data → numeric data.
Proof. intros Hb k s Hk. destruct (Hb k Hk) as [q ->]. done. Qed.

Lemma get_numeric data k d :
  numeric data → k ∈ numeric_fields → get data k d = Ok (field_or data k d).
Proof.
  intros Hn Hk. unfold get, field_or.
  destruct (data !! k) as [[s|q]|] eqn:E; try done.
  by destruct (Hn k s Hk).
Qed.

Lemma item_positive data k : 0 < field data k → item data k = Ok (field data k).
Proof.
  unfold item, field_or. by destruct (data !! k) as [[s|q]|].
Qed.

Lemma item_built data k :
  form_built data → k ∈ numeric_fields → item data k = Ok (field data k).
Proof.
  intros Hb Hk. unfold item, field_or. by destruct (Hb k Hk) as [q ->].
Qed.

Lemma field_or_nonneg data k d :
  nonneg data → k ∈ numeric_fields → 0 <= d → 0 <= field_or data k d.
Proof.
  intros Hn Hk Hd. unfold field_or.
  destruct (data !! k) as [[s|q]|] eqn:E; try done. by apply (Hn k).
Qed.

Lemma field_le_default data k : field data k <= py_max (field_or data k 1) 1.
Proof.
  unfold field_or. destruct (py_max_spec (match data !! k with
    | Some (VNum q) => q | _ => 1 end) 1) as [[H ->]|[H ->]];
  destruct (data !! k) as [[s|q]|]; lra.
Qed.

(** ** Stepping through the scoring code *)

Ltac positive :=
  solve [ assumption | reflexivity
        | apply Qdiv_pos; positive
        | apply Qmult_pos; positive
        | match goal with
          | |- 0 < py_max ?a 1 => destruct (py_max_spec a 1) as [[? ->]|[? ->]]; lra
          end
        | lra ].

Ltac run H :=
  repeat first
    [ rewrite (get_numeric _ _ _ H) by compute_done
    | progress cbn [mbind result_bind mret result_ret]
    | match goal with
      | |- context [item ?d ?k] => rewrite (item_positive d k) by positive
      | |- context [py_div ?a ?b] => rewrite (py_div_ok a b) by (apply Qpos_nonzero; positive)
      end ].

Tactic Notation "branch" ident(E0) :=
  let E := fresh E0 in
  match goal with
  | |- context [if num_gt ?a ?b then _ else _] =>
      destruct (num_gt a b) eqn:E; [apply num_gt_true in E | apply num_gt_false in E]
  | |- context [if num_ge ?a ?b then _ else _] =>
      destruct (num_ge a b) eqn:E; [apply num_ge_true in E | apply num_ge_false in E]
  | |- context [if num_lt ?a ?b then _ else _] =>
      destruct (num_lt a b) eqn:E; [apply num_lt_true in E | apply num_lt_false in E]
  end.

Ltac literals := rewrite ?Qdiv_literal.

Ltac min_max :=
  repeat match goal with
  | |- context [py_min ?a ?b] =>
      let H := fresh in let E := fresh in
      destruct (py_min_spec a b) as [[H E]|[H E]]; rewrite ?E in *; clear E
  | |- context [py_max ?a ?b] =>
      let H := fresh in let E := fresh in
      destruct (py_max_spec a b) as [[H E]|[H E]]; rewrite ?E in *; clear E
  end.

Ltac nonneg_field Hp k :=
  let H := fresh "Hf" in
  pose proof (field_or_nonneg _ k 0 Hp ltac:(compute_done) ltac:(lra)) as H.

(** ** The blocks of calculate_comprehensive_metrics *)

Lemma unit_economics_no_cac data :
  numeric data → field data "cac" <= 0 → unit_economics data = Ok (0, Inf).
Proof.
  intros Hn Hc. unfold unit_economics. run Hn.
  apply num_gt_false in Hc. by rewrite Hc.
Qed.

Lemma unit_economics_cac data :
  numeric data → 0 < field data "cac" →
  unit_economics data =
    Ok (field data "ltv" / field data "cac",
        if num_gt (field data "arr") 0
        then Fin (field data "cac" /
                  (field data "arr" / 12 / py_max (field_or data "current_customers" 1) 1))
        else Inf).
Proof.
  intros Hn Hc. unfold unit_economics. run Hn.
  rewrite (proj2 (num_gt_true _ _) Hc). run Hn.
  branch Ha; run Hn; done.
Qed.

Lemma burn_multiple_of_spec data :
  numeric data →
  burn_multiple_of data =
    Ok (if num_gt (field data "burn_rate") 0 then
          if num_gt (field data "current_mrr") 0 then
            if num_gt (field data "burn_rate" - field data "current_mrr") 0 then
              if num_gt (field data "monthly_growth_rate") 0 then
                Fin ((field data "burn_rate" - field data "current_mrr") /
                     (field data "current_mrr" * field data "monthly_growth_rate" / 100))
              else Fin 0
            else Fin 0
          else Inf
        else Inf).
Proof.
  intros Hn. unfold burn_multiple_of. run Hn.
  branch Hb; run Hn; [|done].
  branch Hm; run Hn; [|done].
  branch Hnet; run Hn; [|done].
  branch Hg; run Hn; done.
Qed.

Lemma efficiency_score_of_spec data ratio :
  numeric data →
  ∃ e, efficiency_score_of data ratio = Ok e ∧ (nonneg data → 0 <= e <= 100).
Proof.
  intros Hn. unfold efficiency_score_of. run Hn. eexists; split; [reflexivity|].
  intros Hp. nonneg_field Hp "gross_margin".
  destruct (num_gt ratio 0) eqn:Hr; [apply num_gt_true in Hr|];
    literals; min_max; lra.
Qed.

Lemma growth_score_of_spec data :
  numeric data →
  ∃ g, growth_score_of data = Ok g ∧ (nonneg data → 0 <= g <= 100).
Proof.
  intros Hn. unfold growth_score_of. run Hn.
  repeat (branch E; [eexists; split; [reflexivity|intros _; lra]|]).
  eexists; split; [reflexivity|]. intros Hp. nonneg_field Hp "monthly_growth_rate". lra.
Qed.

Lemma market_score_of_spec data :
  numeric data →
  ∃ m, market_score_of data = Ok m ∧ (nonneg data → 0 <= m <= 100).
Proof.
  intros Hn. unfold market_score_of. run Hn.
  set (size := if num_ge (field data "tam") 10000 then _ else _).
  assert (Hs : 0 <= size <= 100).
  { subst size. repeat (branch E; [lra|]). lra. }
  clearbody size.
  branch Ht; run Hn; [|eexists; split; [reflexivity|intros _; literals; lra]].
  branch Hsom; run Hn; [|eexists; split; [reflexivity|intros _; literals; lra]].
  eexists; split; [reflexivity|]. intros _.
  pose proof (Qdiv_pos _ _ Hsom Ht).
  literals. min_max; lra.
Qed.

Lemma team_score_of_spec data :
  numeric data →
  ∃ t, team_score_of data = Ok t ∧
    (nonneg data →
     0 <= t ∧ (field data "technical_team" <= field data "team_size" → t <= 100)).
Proof.
  intros Hn. unfold team_score_of. run Hn. eexists; split; [reflexivity|].
  intros Hp.
  nonneg_field Hp "team_size". nonneg_field Hp "technical_team".
  nonneg_field Hp "advisors_count".
  assert (Hm : 0 < py_max (field_or data "team_size" 1) 1) by positive.
  pose proof (field_le_default data "team_size") as Hle.
  pose proof (Qdiv_nonneg _ _ Hf0 Hm) as Hr.
  assert (Hr1 : field data "technical_team" <= field data "team_size" →
                field data "technical_team" / py_max (field_or data "team_size" 1) 1 <= 1).
  { intros Hts. apply Qle_shift_div_r; [done|]. lra. }
  set (r := _ / py_max _ _) in *. clearbody r.
  literals. split.
  - min_max; lra.
  - intros Hts. specialize (Hr1 Hts). min_max; lra.
Qed.

Lemma traction_score_of_spec data :
  numeric data →
  ∃ t, traction_score_of data = Ok t ∧ (nonneg data → 0 <= t <= 100).
Proof.
  intros Hn. unfold traction_score_of. run Hn. eexists; split; [reflexivity|].
  intros Hp.
  nonneg_field Hp "current_customers". nonneg_field Hp "arr".
  nonneg_field Hp "funding_raised".
  literals. min_max; lra.
Qed.

Lemma risk_score_of_spec data :
  numeric data →
  ∃ r, risk_score_of data = Ok r ∧ (nonneg data → 0 <= r <= 100).
Proof.
  intros Hn. unfold risk_score_of. run Hn. eexists; split; [reflexivity|].
  intros Hp.
  nonneg_field Hp "runway_months". nonneg_field Hp "churn_rate".
  literals. min_max; lra.
Qed.

(** ** calculate_comprehensive_metrics as a whole *)

Lemma unit_economics_total data :
  numeric data → ∃ ratio payback, unit_economics data = Ok (ratio, payback).
Proof.
  intros Hn. destruct (Qlt_le_dec 0 (field data "cac")) as [Hc|Hc].
  - rewrite (unit_economics_cac _ Hn Hc). eauto.
  - rewrite (unit_economics_no_cac _ Hn Hc). eauto.
Qed.

(** The fields of a returned metric set are the results of the blocks. *)
Lemma metrics_body_blocks data m :
  metrics_body data = Ok m →
  unit_economics data = Ok (ltv_cac_ratio m, payback_period m) ∧
  burn_multiple_of data = Ok (burn_multiple m) ∧
  efficiency_score_of data (ltv_cac_ratio m) = Ok (efficiency_score m) ∧
  growth_score_of data = Ok (growth_score m) ∧
  market_score_of data = Ok (market_score m) ∧
  team_score_of data = Ok (team_score m) ∧
  traction_score_of data = Ok (traction_score m) ∧
  risk_score_of data = Ok (risk_score m) ∧
  overall_score m =
    overall_score_of (efficiency_score m) (growth_score m) (market_score m)
      (team_score m) (traction_score m) (risk_score m).
Proof.
  unfold metrics_body.
  destruct (unit_economics data) as [[ratio payback]|]; [|done].
  cbn [mbind result_bind mret result_ret].
  destruct (burn_multiple_of data); [|done].
  destruct (efficiency_score_of data ratio) eqn:He; [|done].
  destruct (growth_score_of data); [|done].
  destruct (market_score_of data); [|done].
  destruct (team_score_of data); [|done].
  destruct (traction_score_of data); [|done].
  destruct (risk_score_of data); [|done].
  cbn [mbind result_bind mret result_ret].
  intros [= <-]. cbn. by rewrite He.
Qed.

(** On a numeric proposal the body of the [try] returns: no key is missing
    where it is indexed and no divisor is zero. *)
Lemma metrics_body_returns data :
  numeric data → metrics_body data = Ok (calculate_comprehensive_metrics data).
Proof.
  intros Hn. unfold calculate_comprehensive_metrics, metrics_body.
  destruct (unit_economics_total data Hn) as (ratio & payback & ->).
  rewrite (burn_multiple_of_spec data Hn).
  cbn [mbind result_bind mret result_ret].
  destruct (efficiency_score_of_spec data ratio Hn) as (? & -> & _).
  destruct (growth_score_of_spec data Hn) as (? & -> & _).
  destruct (market_score_of_spec data Hn) as (? & -> & _).
  destruct (team_score_of_spec data Hn) as (? & -> & _).
  destruct (traction_score_of_spec data Hn) as (? & -> & _).
  destruct (risk_score_of_spec data Hn) as (? & -> & _).
  done.
Qed.

Lemma overall_score_of_range e g m t tr r :
  0 <= e <= 100 → 0 <= g <= 100 → 0 <= m <= 100 →
  0 <= t <= 100 → 0 <= tr <= 100 → 0 <= r <= 100 →
  0 <= overall_score_of e g m t tr r <= 100.
Proof. unfold overall_score_of, weights. cbn. lra. Qed.

(** The part of the range property that the code has: five sub-scores are
    in [0, 100] on every non-negative numeric proposal; the team score is
    non-negative, and it and the overall score are at most 100 when the
    technical team is no larger than the team. *)
Lemma sub_scores_in_range data :
  numeric data → nonneg data →
  let m := calculate_comprehensive_metrics data in
  0 <= efficiency_score m <= 100 ∧
  0 <= growth_score m <= 100 ∧
  0 <= market_score m <= 100 ∧
  0 <= traction_score m <= 100 ∧
  0 <= risk_score m <= 100 ∧
  0 <= team_score m ∧
  0 <= overall_score m ∧
  (field data "technical_team" <= field data "team_size" →
   team_score m <= 100 ∧ overall_score m <= 100).
Proof.
  intros Hn Hp m.
  destruct (metrics_body_blocks data m (metrics_body_returns data Hn))
    as (_ & _ & He & Hg & Hm & Ht & Htr & Hr & Ho).
  destruct (efficiency_score_of_spec data (ltv_cac_ratio m) Hn) as (e & He' & Be).
  destruct (growth_score_of_spec data Hn) as (g & Hg' & Bg).
  destruct (market_score_of_spec data Hn) as (k & Hm' & Bm).
  destruct (team_score_of_spec data Hn) as (t & Ht' & Bt).
  destruct (traction_score_of_spec data Hn) as (tr & Htr' & Btr).
  destruct (risk_score_of_spec data Hn) as (r & Hr' & Br).
  rewrite He in He'. rewrite Hg in Hg'. rewrite Hm in Hm'. rewrite Ht in Ht'.
  rewrite Htr in Htr'. rewrite Hr in Hr'.
  injection He' as <-. injection Hg' as <-. injection Hm' as <-.
  injection Ht' as <-. injection Htr' as <-. injection Hr' as <-.
  specialize (Be Hp). specialize (Bg Hp). specialize (Bm Hp).
  specialize (Btr Hp). specialize (Br Hp). destruct (Bt Hp) as [Bt0 Bt1].
  rewrite Ho. unfold overall_score_of, weights. cbn [w_efficiency w_growth w_market w_team w_traction w_risk].
  repeat split; try tauto; try lra.
Qed.

(** ** Sample data is well formed *)

Ltac each_field Hk :=
  unfold numeric_fields in Hk;
  repeat (apply elem_of_cons in Hk as [-> | Hk]; [vm_compute|]);
  [..| by apply elem_of_nil in Hk].

Ltac numeric_form := intros k s Hk; each_field Hk; discriminate.
Ltac nonneg_form := intros k q Hk; each_field Hk; intros [= <-]; discriminate.

(** ** The metric calculator and the score aggregator *)

(** The scenarios of the design document on [sample_form]: cac 100 and
    ltv 400 give the ratio 4; growth 12 gives 80; tam 5000 without som gives
    65; a team of 10 with 6 technical members and 2 advisors gives 50. *)
Example sample_scores :
  let m := calculate_comprehensive_metrics sample_form in
  ltv_cac_ratio m == 4 ∧ payback_period m = Fin (48000 # 240000) ∧
  growth_score m == 80 ∧ market_score m == 65 ∧ team_score m == 50.
Proof. repeat split; by vm_compute. Qed.

(** C1, at a submission the form accepts (one employee, forty technical team
    members, every number non-negative): the team score is 4045/3, about
    1348, and the overall score is 3904/15, about 260; both are above 100. *)
Theorem team_score_exceeds_100 :
  numeric lopsided_form ∧ nonneg lopsided_form ∧
  missing_fields lopsided_form = [] ∧
  team_score (calculate_comprehensive_metrics lopsided_form) == 4045 # 3 ∧
  overall_score (calculate_comprehensive_metrics lopsided_form) == 3904 # 15 ∧
  100 < team_score (calculate_comprehensive_metrics lopsided_form) ∧
  100 < overall_score (calculate_comprehensive_metrics lopsided_form).
Proof.
  split; [numeric_form|]. split; [nonneg_form|].
  split; [by vm_compute|].
  repeat split; by vm_compute.
Qed.





(** C7: the overall score is the linear combination
    efficiency*0.20 + growth*0.20 + market*0.15 + team*0.15 + traction*0.20
    + risk*0.10 of the six sub-scores, for every six numbers and in every
    metric set the calculator returns (the all-zero set of its except
    branch included); the six weights add up to 1. *)
Theorem overall_score_weighted_sum :
  (∀ efficiency growth market team traction risk : Q,
     overall_score_of efficiency growth market team traction risk =
       efficiency * 0.20 + growth * 0.20 + market * 0.15 +
       team * 0.15 + traction * 0.20 + risk * 0.10) ∧
  (∀ data : gmap string pyval,
     let m := calculate_comprehensive_metrics data in
     overall_score m ==
       efficiency_score m * 0.20 + growth_score m * 0.20 + market_score m * 0.15 +
       team_score m * 0.15 + traction_score m * 0.20 + risk_score m * 0.10) ∧
  w_efficiency weights + w_growth weights + w_market weights +
    w_team weights + w_traction weights + w_risk weights == 1.
Proof.
  split; [done|]. split; [|done].
  intros data m. subst m. unfold calculate_comprehensive_metrics.
  destruct (metrics_body data) as [m|e] eqn:Hm.
  - destruct (metrics_body_blocks data m Hm) as (_ & _ & _ & _ & _ & _ & _ & _ & ->).
    reflexivity.
  - reflexivity.
Qed.

(** ** The recommendation list *)

(** C3: for every metric set and every form built by the handler, the
    five checks run in the source order: the areas of the list are those of
    the checks whose condition holds (ltv_cac_ratio < 3, runway_months < 18,
    gross_margin < 70, monthly_growth_rate < 10, churn_rate > 5), in that
    order, one entry per check; the list has at most five entries and is
    empty exactly when no condition holds. *)
Theorem recommendations_follow_checks
    (metrics : Metrics) (form_data : gmap string pyval) :
  form_built form_data →
  ∃ recommendations,
    recommendations_of metrics form_data = Ok recommendations ∧
    area <$> recommendations =
      (if num_lt (ltv_cac_ratio metrics) 3 then ["Unit Economics"] else []) ++
      (if num_lt (field form_data "runway_months") 18 then ["Financial Health"] else []) ++
      (if num_lt (field form_data "gross_margin") 70 then ["Business Model"] else []) ++
      (if num_lt (field form_data "monthly_growth_rate") 10 then ["Growth"] else []) ++
      (if num_gt (field form_data "churn_rate") 5 then ["Customer Retention"] else []) ∧
    (length recommendations <= 5)%nat ∧
    (recommendations = [] ↔
       ¬ ltv_cac_ratio metrics < 3 ∧
       ¬ field form_data "runway_months" < 18 ∧
       ¬ field form_data "gross_margin" < 70 ∧
       ¬ field form_data "monthly_growth_rate" < 10 ∧
       ¬ 5 < field form_data "churn_rate").
Proof.
  intros Hb. unfold recommendations_of.
  rewrite !(item_built _ _ Hb) by compute_done.
  cbn [mbind result_bind mret result_ret].
  eexists; split; [reflexivity|].
  rewrite <- (num_gt_true _ 5), <- !num_lt_true.
  destruct (num_lt (ltv_cac_ratio metrics) 3),
    (num_lt (field form_data "runway_months") 18),
    (num_lt (field form_data "gross_margin") 70),
    (num_lt (field form_data "monthly_growth_rate") 10),
    (num_gt (field form_data "churn_rate") 5);
    (split; [reflexivity|]); (split; [cbn; lia|]); cbn; intuition congruence.
Qed.

Lemma sample_form_built : form_built sample_form.
Proof.
  intros k Hk. each_field Hk; eexists; reflexivity.
Defined.

Lemma recommendations_follow_checks_witness :
  ∃ recommendations,
    recommendations_of (calculate_comprehensive_metrics sample_form) sample_form =
      Ok recommendations ∧
    area <$> recommendations =
      ["Financial Health"; "Business Model"; "Customer Retention"].
Proof.
  destruct (recommendations_follow_checks
              (calculate_comprehensive_metrics sample_form) sample_form
              sample_form_built) as (recs & Hr & Ha & _).
  exists recs. split; [exact Hr|]. rewrite Ha. by vm_compute.
Defined.

(** ** Required-field validation *)

Lemma truthy_zero q : q == 0 → truthy (Some (VNum q)) = false.
Proof. intros Hq. cbn. by rewrite (proj2 (Qeq_bool_iff q 0) Hq). Qed.

(** C10: a required numeric field that holds 0 is reported as missing,
    and the submission then stops at the validation: no metrics, no
    recommendations, no call to the AI collaborator. *)
Theorem zero_counts_as_missing
    (OpenAI : string → result string ())
    (chat_completions_create : string → gmap string pyval → result string (option string))
    (json_loads : string → option json) (render_insights : json → bool)
    (session : SessionState) (form_data : gmap string pyval)
    (name : string) (q : Q) :
  name ∈ ["cac"; "ltv"; "burn_rate"; "runway_months"; "funding_seeking"] →
  form_data !! name = Some (VNum q) →
  q == 0 →
  name ∈ missing_fields form_data ∧
  process_submission OpenAI chat_completions_create json_loads render_insights
      session form_data =
    (MissingFields (missing_fields form_data), []).
Proof.
  intros Hname Hq H0.
  assert (Hin : name ∈ missing_fields form_data).
  { unfold missing_fields. apply list_elem_of_filter. split.
    - rewrite Hq, (truthy_zero q H0). intros [].
    - revert Hname. unfold required_fields. rewrite !elem_of_cons. tauto. }
  split; [done|]. unfold process_submission.
  destruct (missing_fields form_data) eqn:E; [by apply elem_of_nil in Hin|done].
Qed.

Lemma zero_counts_as_missing_witness :
  "cac" ∈ missing_fields no_cac_form ∧
  process_submission any_client (answers "{}") Json.loads (λ _, true)
      pro_session no_cac_form =
    (MissingFields ["cac"], []).
Proof.
  destruct (zero_counts_as_missing any_client (answers "{}") Json.loads (λ _, true)
              pro_session no_cac_form "cac" 0) as [Hin Hp].
  - set_solver.
  - by vm_compute.
  - reflexivity.
  - split; [exact Hin|]. rewrite Hp. by vm_compute.
Defined.

(** ** Facts about the string operations *)

(** The operations on inputs whose Python results are known. *)
Example split_examples :
  split "a```json b ``` c```" "```" = ["a"; "json b "; " c"; ""] ∧
  split "a```json b ``` c```" "```json" = ["a"; " b ``` c```"] ∧
  split "aaaa" "aa" = [""; ""; ""] ∧
  split "aaa" "aa" = [""; "a"] ∧
  split "abc" "```" = ["abc"].
Proof. repeat split; reflexivity. Qed.

Example find_examples :
  find "ab{c{" "{" = 2%Z ∧ find "abc" "{" = (-1)%Z ∧
  rfind "ab}c}" "}" = 4%Z ∧ rfind "abc" "}" = (-1)%Z ∧
  slice_from "abcdef" 2 = "cdef" ∧ slice_to "abcdef" 3 = "abc" ∧
  slice_from "abc" (-1) = "c" ∧ slice_to "abc" 10 = "abc".
Proof. repeat split; reflexivity. Qed.

Example strip_examples :
  strip ("  a b " +:+ newline) = "a b" ∧ strip "   " = "" ∧
  lower "Rate LIMIT api_KEY" = "rate limit api_key" ∧
  endswith "abc}" "}" = true ∧ endswith "}a" "}" = false ∧
  occurs "```" "ab``c```" = true ∧ occurs "```" "ab``c``" = false.
Proof. repeat split; reflexivity. Qed.

Lemma app_cons c s r : String c s +:+ r = String c (s +:+ r).
Proof. reflexivity. Qed.

Lemma app_nil_l r : "" +:+ r = r.
Proof. reflexivity. Qed.

Ltac unfold_app := rewrite ?app_cons, ?app_nil_l in *.

Lemma app_nil_r s : s +:+ "" = s.
Proof. induction s as [|c s IH]; [done|]. by rewrite app_cons, IH. Qed.

Lemma app_assoc a b c : (a +:+ b) +:+ c = a +:+ b +:+ c.
Proof. induction a as [|x a IH]; [done|]. by rewrite !app_cons, IH. Qed.

Lemma length_app a b : String.length (a +:+ b) = (String.length a + String.length b)%nat.
Proof. induction a as [|x a IH]; [done|]. rewrite app_cons. cbn. by rewrite IH. Qed.

Lemma startswith_app p r : startswith (p +:+ r) p = true.
Proof.
  induction p as [|c p IH]; [reflexivity|]. rewrite app_cons. cbn.
  by rewrite bool_decide_eq_true_2, IH.
Qed.

Lemma startswith_refl p : startswith p p = true.
Proof. rewrite <- (app_nil_r p) at 1. apply startswith_app. Qed.

(** A character foreign to [p] decides the match before it. *)
Lemma startswith_stop a c r p :
  occurs (String c "") p = false →
  startswith (a +:+ String c r) p = startswith a p.
Proof.
  revert p. induction a as [|x a IH]; intros [|d p] Hc; unfold_app; cbn in *; try done.
  - apply orb_false_elim in Hc as [Hd _].
    destruct (bool_decide (c = d)) eqn:E; [|done].
    apply bool_decide_eq_true in E as ->.
    rewrite bool_decide_eq_true_2 in Hd by done. by destruct p.
  - apply orb_false_elim in Hc as [_ Hp]. by rewrite (IH p Hp).
Qed.

Lemma drop_chars_app a s : drop_chars (String.length a) (a +:+ s) = s.
Proof. induction a as [|x a IH]; [done|]. rewrite app_cons. by cbn. Qed.

Lemma take_chars_all s : take_chars (String.length s) s = s.
Proof. induction s as [|x s IH]; [done|]. cbn. by rewrite IH. Qed.

Lemma occurs_app sep a b : occurs sep (a +:+ sep +:+ b) = true.
Proof.
  induction a as [|x a IH]; unfold_app.
  - destruct (sep +:+ b) eqn:E; cbn; rewrite <- E, startswith_app; done.
  - cbn [occurs]. rewrite IH. apply orb_true_r.
Qed.

(** *** split *)

Lemma split_go_skip sep a s :
  split_go sep (String.length a) (a +:+ s) = split_go sep 0 s.
Proof.
  induction a as [|x a IH]; unfold_app; [|done].
  by destruct s.
Qed.

Lemma split_go_first sep a b :
  sep ≠ "" →
  unmatched sep a (sep +:+ b) →
  split_go sep 0 (a +:+ sep +:+ b) = a :: split_go sep 0 b.
Proof.
  intros Hsep. induction a as [|x a IH]; intros Hu.
  - destruct sep as [|p sep]; [done|]. unfold_app. cbn [split_go].
    rewrite <- app_cons, startswith_app.
    change (String.length (String p sep) - 1)%nat with (String.length sep - 0)%nat.
    by rewrite Nat.sub_0_r, split_go_skip.
  - destruct Hu as [Hx Hu]. unfold_app. cbn [split_go].
    rewrite Hx, (IH Hu). done.
Qed.

Lemma split_go_none sep a : unmatched sep a "" → split_go sep 0 a = [a].
Proof.
  induction a as [|x a IH]; intros Hu; [done|].
  destruct Hu as [Hx Hu]. rewrite app_nil_r in Hx. cbn [split_go].
  by rewrite Hx, (IH Hu).
Qed.

Lemma unmatched_occurs sep a : sep ≠ "" → unmatched sep a "" → occurs sep a = false.
Proof.
  intros Hsep. induction a as [|x a IH]; intros Hu.
  - by destruct sep.
  - destruct Hu as [Hx Hu]. rewrite app_nil_r in Hx. cbn [occurs].
    by rewrite Hx, (IH Hu).
Qed.

Lemma unmatched_app sep a b rest :
  unmatched sep a (b +:+ rest) → unmatched sep b rest →
  unmatched sep (a +:+ b) rest.
Proof.
  intros Ha Hb. induction a as [|x a IH]; [done|].
  destruct Ha as [Hx Ha]. rewrite app_cons. split; [|by apply IH].
  by rewrite <- app_cons, app_assoc.
Qed.

(** Where the first character of [sep] is absent, no occurrence starts. *)
Lemma unmatched_free p sep a rest :
  occurs (String p "") a = false → unmatched (String p sep) a rest.
Proof.
  induction a as [|x a IH]; intros Hf; [done|].
  cbn in Hf. apply orb_false_elim in Hf as [Hx Hf].
  rewrite andb_true_r in Hx. split; [|by apply IH].
  rewrite app_cons. cbn. by rewrite Hx.
Qed.

(** A longer separator matches in fewer places. *)
Lemma unmatched_longer sep more a rest :
  unmatched sep a rest → unmatched (sep +:+ more) a rest.
Proof.
  assert (Hp : ∀ sep s, startswith s sep = false → startswith s (sep +:+ more) = false).
  { clear. induction sep as [|p sep IH]; intros [|c s]; unfold_app; cbn; try done.
    destruct (bool_decide (c = p)); cbn; [apply IH|done]. }
  induction a as [|x a IH]; [done|]. intros [Hx Ha].
  split; [by apply Hp|by apply IH].
Qed.

(** *** Single characters *)

Lemma occurs_char_cons x c s :
  occurs (String x "") (String c s) = bool_decide (c = x) || occurs (String x "") s.
Proof. cbn. by rewrite andb_true_r. Qed.

Lemma occurs_char_app x a b :
  occurs (String x "") (a +:+ b) = occurs (String x "") a || occurs (String x "") b.
Proof.
  induction a as [|c a IH]; unfold_app.
  - by destruct b.
  - by rewrite !occurs_char_cons, IH, orb_assoc.
Qed.

Lemma blank_free x ws :
  isspace x = false → blank ws = true → occurs (String x "") ws = false.
Proof.
  intros Hx. induction ws as [|c ws IH]; [done|]. cbn [blank].
  intros [Hc Hws]%andb_true_iff. rewrite occurs_char_cons, (IH Hws), orb_false_r.
  apply bool_decide_eq_false. intros ->. congruence.
Qed.

(** *** strip *)

Lemma lstrip_keeps a c r :
  isspace c = false → lstrip (a +:+ String c r) = lstrip a +:+ String c r.
Proof.
  intros Hc. induction a as [|x a IH]; unfold_app; cbn [lstrip].
  - by rewrite Hc.
  - destruct (isspace x); [done|by rewrite app_cons].
Qed.

Lemma occurs_lstrip x a :
  occurs (String x "") a = false → occurs (String x "") (lstrip a) = false.
Proof.
  induction a as [|c a IH]; [done|]. rewrite occurs_char_cons.
  intros [Hc Ha]%orb_false_elim. cbn [lstrip].
  destruct (isspace c); [by apply IH|]. by rewrite occurs_char_cons, Hc, Ha.
Qed.

Lemma lstrip_blank ws : blank ws = true → lstrip ws = "".
Proof.
  induction ws as [|c ws IH]; [done|]. cbn [blank lstrip].
  intros [-> Hws]%andb_true_iff. by apply IH.
Qed.

Lemma rstrip_cons c r : isspace c = false → rstrip (String c r) = String c (rstrip r).
Proof. intros Hc. cbn [rstrip]. rewrite Hc. by destruct (rstrip r). Qed.

Lemma rstrip_keeps a c r :
  isspace c = false → rstrip (a +:+ String c r) = a +:+ String c (rstrip r).
Proof.
  intros Hc. induction a as [|x a IH]; unfold_app; [by apply rstrip_cons|].
  cbn [rstrip]. rewrite IH. by destruct a.
Qed.

Lemma rstrip_blank ws : blank ws = true → rstrip ws = "".
Proof.
  induction ws as [|c ws IH]; [done|]. cbn [blank rstrip].
  intros [-> Hws]%andb_true_iff. by rewrite (IH Hws).
Qed.

Lemma occurs_rstrip x a :
  occurs (String x "") a = false → occurs (String x "") (rstrip a) = false.
Proof.
  induction a as [|c a IH]; [done|]. rewrite occurs_char_cons.
  intros [Hc Ha]%orb_false_elim. specialize (IH Ha). cbn [rstrip].
  destruct (rstrip a) eqn:E.
  - destruct (isspace c); [done|]. by rewrite occurs_char_cons, Hc.
  - by rewrite occurs_char_cons, Hc, IH.
Qed.

Lemma startswith_rstrip t p :
  startswith t p = false → startswith (rstrip t) p = false.
Proof.
  revert p. induction t as [|c t IH]; intros p Hp; [done|].
  destruct p as [|d p]; [done|]. cbn in Hp. cbn [rstrip].
  destruct (rstrip t) eqn:E.
  - destruct (isspace c); [done|]. cbn.
    destruct (bool_decide (c = d)); [|done]. cbn in *.
    specialize (IH p Hp). by destruct p.
  - cbn. destruct (bool_decide (c = d)); [|done]. by apply IH.
Qed.

Lemma endswith_inv s suffix : endswith s suffix = true → ∃ a, s = a +:+ suffix.
Proof.
  induction s as [|c s IH]; cbn [endswith].
  - intros [H|H]%orb_true_iff; [|done].
    apply bool_decide_eq_true in H as <-. by exists "".
  - intros [H|H]%orb_true_iff.
    + apply bool_decide_eq_true in H as <-. by exists "".
    + destruct (IH H) as [a ->]. by exists (String c a).
Qed.

(** *** find, rfind and slices *)

Lemma find_from_free x u r i :
  occurs (String x "") u = false →
  find_from (String x "") (u +:+ String x r) i = (i + Z.of_nat (String.length u))%Z.
Proof.
  revert i. induction u as [|c u IH]; intros i Hu; unfold_app.
  - cbn. rewrite bool_decide_eq_true_2 by done. cbn. lia.
  - rewrite occurs_char_cons in Hu. apply orb_false_elim in Hu as [Hc Hu].
    cbn [find_from startswith]. rewrite Hc. cbn. rewrite (IH _ Hu). lia.
Qed.

Lemma slice_from_app u s : slice_from (u +:+ s) (Z.of_nat (String.length u)) = s.
Proof.
  unfold slice_from, slice_index. rewrite length_app.
  replace (Z.to_nat _) with (String.length u); [apply drop_chars_app|].
  destruct (Z.ltb_spec (Z.of_nat (String.length u)) 0); lia.
Qed.

Lemma rfind_from_last s i :
  (0 <= i)%Z → endswith s "}" = true →
  rfind_from "}" s i = (i + Z.of_nat (String.length s) - 1)%Z.
Proof.
  revert i. induction s as [|c s IH]; intros i Hi; [done|].
  cbn [endswith]. intros [H|H]%orb_true_iff.
  - apply bool_decide_eq_true in H. injection H as -> ->. cbn.
    rewrite !bool_decide_eq_true_2 by done. cbn. lia.
  - cbn [rfind_from]. rewrite (IH (i + 1)%Z) by (done || lia).
    rewrite bool_decide_eq_false_2 by lia. cbn [String.length]. lia.
Qed.

(** The third clean-up step changes nothing: the text is cut just after
    its last brace only when that brace already ends it. *)
Lemma remove_after_last_brace_id s : remove_after_last_brace s = s.
Proof.
  unfold remove_after_last_brace. destruct (endswith s "}") eqn:E; [|done].
  unfold rfind. rewrite (rfind_from_last s 0) by done.
  unfold slice_to, slice_index.
  replace (Z.to_nat _) with (String.length s); [apply take_chars_all|].
  destruct s; [done|]. cbn [String.length].
  destruct (Z.ltb_spec (0 + Z.of_nat (S (String.length s)) - 1 + 1) 0); lia.
Qed.

(** *** Code fences *)

Lemma startswith_inv s p : startswith s p = true → ∃ r, s = p +:+ r.
Proof.
  revert s. induction p as [|d p IH]; intros s H; [by exists s|].
  destruct s as [|c s]; [done|]. cbn in H.
  apply andb_true_iff in H as [Hc Hs]. apply bool_decide_eq_true in Hc as ->.
  destruct (IH s Hs) as [r ->]. by exists r.
Qed.

(** A text that ends with a character foreign to the pattern matches it
    on its own characters only. *)
Lemma startswith_ended c u rest p :
  endswith u (String c "") = true → occurs (String c "") p = false →
  startswith (u +:+ rest) p = startswith u p.
Proof.
  intros [a ->]%endswith_inv Hp.
  rewrite app_assoc. unfold_app.
  by rewrite !startswith_stop.
Qed.

Lemma unmatched_ended c p s rest :
  occurs (String c "") p = false → occurs p s = false →
  endswith s (String c "") = true →
  unmatched p s rest.
Proof.
  intros Hp. induction s as [|x s IH]; [done|].
  cbn [occurs]. intros [Hc Hs]%orb_false_elim He. split.
  - by rewrite (startswith_ended c).
  - destruct s as [|x' s]; [done|]. apply IH; [done|].
    cbn [endswith] in He. apply orb_true_iff in He as [He|He]; [|done].
    by apply bool_decide_eq_true in He.
Qed.

Lemma last_char s : s = "" ∨ ∃ a c, s = a +:+ String c "".
Proof.
  induction s as [|x s IH]; [by left|]. right.
  destruct IH as [->|(a & c & ->)].
  - by exists "", x.
  - by exists (String x a), c.
Qed.

Lemma endswith_app a suffix : endswith (a +:+ suffix) suffix = true.
Proof.
  induction a as [|x a IH]; unfold_app.
  - destruct suffix; cbn; by rewrite bool_decide_eq_true_2.
  - cbn [endswith]. rewrite IH. apply orb_true_r.
Qed.

(** No fence starts in a text that holds none and does not end with a
    backtick, whatever follows. *)
Lemma unmatched_lead lead rest :
  occurs "```" lead = false → endswith lead "`" = false →
  unmatched "```" lead rest.
Proof.
  intros Ho He. destruct (last_char lead) as [->|(a & c & ->)]; [done|].
  apply (unmatched_ended c); [|done|apply endswith_app].
  destruct (decide (c = "`"%char)) as [->|Hc].
  - by rewrite endswith_app in He.
  - cbn. by rewrite bool_decide_eq_false_2.
Qed.

Lemma occurs_unmatched sep a : occurs sep a = false → unmatched sep a "".
Proof.
  induction a as [|x a IH]; [done|]. cbn [occurs].
  intros [Hx Ha]%orb_false_elim. split; [by rewrite app_nil_r|by apply IH].
Qed.

Lemma startswith_prefix x w p : startswith (x +:+ w) p = false → startswith x p = false.
Proof.
  revert x. induction p as [|d p IH]; intros [|c x]; unfold_app; cbn; try done.
  destruct (bool_decide (c = d)); [apply IH|done].
Qed.

Lemma occurs_prefix p x w : occurs p (x +:+ w) = false → occurs p x = false.
Proof.
  induction x as [|c x IH]; unfold_app.
  - intros H. destruct p as [|d p]; [by destruct w|done].
  - cbn [occurs]. intros [Hc Hx]%orb_false_elim.
    rewrite (IH Hx), orb_false_r. by apply (startswith_prefix (String c x) w).
Qed.

Lemma rstrip_prefix t : ∃ w, t = rstrip t +:+ w.
Proof.
  induction t as [|c t [w IH]]; [by exists ""|]. cbn [rstrip].
  destruct (rstrip t) eqn:E.
  - destruct (isspace c); [by exists (String c t)|]. exists w.
    by rewrite IH at 1.
  - exists w. by rewrite IH at 1.
Qed.

Lemma occurs_lstrip_any p a : occurs p a = false → occurs p (lstrip a) = false.
Proof.
  induction a as [|c a IH]; [done|]. intros H. cbn [lstrip].
  destruct (isspace c); [|done]. apply IH.
  cbn [occurs] in H. by apply orb_false_elim in H as [_ H].
Qed.

Lemma endswith_lstrip a suffix :
  endswith a suffix = false → endswith (lstrip a) suffix = false.
Proof.
  induction a as [|c a IH]; [done|]. intros H. cbn [lstrip].
  destruct (isspace c); [|done]. apply IH.
  cbn [endswith] in H. by apply orb_false_elim in H as [_ H].
Qed.

(** The three backticks of a fence start no [```json] when what follows
    them starts neither with [json] nor with a backtick. *)
Lemma fence_unmatched x :
  startswith x "json" = false → startswith x "`" = false →
  unmatched "```json" "```" x.
Proof.
  intros Hj Hb. unfold_app. cbn [unmatched]. unfold_app. cbn.
  rewrite !bool_decide_eq_true_2 by done. cbn.
  destruct x as [|c x]; [done|]. cbn in Hb. rewrite andb_true_r in Hb.
  rewrite Hb. cbn in Hj. by rewrite Hj.
Qed.

Lemma free_startswith c x : occurs (String c "") x = false → startswith x (String c "") = false.
Proof.
  destruct x as [|d x]; [done|]. rewrite occurs_char_cons.
  intros [H _]%orb_false_elim. cbn. by rewrite H.
Qed.

Lemma lstrip_before_brace a s :
  startswith s "{" = true → lstrip (a +:+ s) = lstrip a +:+ s.
Proof.
  intros [s1 ->]%startswith_inv. rewrite app_cons, app_nil_l.
  by apply lstrip_keeps.
Qed.

Lemma rstrip_after_brace a s ws :
  endswith s "}" = true → blank ws = true → rstrip (a +:+ s +:+ ws) = a +:+ s.
Proof.
  intros [s0 ->]%endswith_inv Hws.
  replace (a +:+ (s0 +:+ "}") +:+ ws) with ((a +:+ s0) +:+ String "}" ws)
    by (by rewrite !app_assoc).
  rewrite rstrip_keeps by done. rewrite (rstrip_blank ws) by done.
  by rewrite !app_assoc.
Qed.

Lemma cut_before_brace u s :
  occurs "{" u = false → startswith s "{" = true →
  remove_before_first_brace (u +:+ s) = s.
Proof.
  intros Hu [s1 ->]%startswith_inv. rewrite (app_cons _ "" s1), app_nil_l.
  unfold remove_before_first_brace.
  destruct (startswith (u +:+ String "{" s1) "{") eqn:E; cbn [negb].
  - destruct u as [|c u]; [done|]. rewrite app_cons in E. cbn in E.
    rewrite occurs_char_cons in Hu. apply orb_false_elim in Hu as [Hc _].
    by rewrite Hc in E.
  - unfold find. rewrite find_from_free by done.
    rewrite bool_decide_eq_false_2 by lia. cbn [negb].
    rewrite Z.add_0_l. apply slice_from_app.
Qed.

(** No fence starts inside a block [tag ws1 s ws2], whatever follows. *)
Lemma block_unmatched tag ws1 s ws2 rest :
  occurs "`" tag = false → blank ws1 = true → blank ws2 = true →
  endswith s "}" = true → occurs "```" s = false →
  unmatched "```" (tag +:+ ws1 +:+ s +:+ ws2) rest.
Proof.
  intros Htag Hws1 Hws2 Hs2 Hs3.
  apply unmatched_app; [by apply unmatched_free|].
  apply unmatched_app; [by apply unmatched_free, blank_free|].
  apply unmatched_app; [by apply (unmatched_ended "}")|].
  by apply unmatched_free, blank_free.
Qed.

Lemma block_unmatched_json tag ws1 s ws2 rest :
  occurs "`" tag = false → blank ws1 = true → blank ws2 = true →
  endswith s "}" = true → occurs "```" s = false →
  unmatched "```json" (tag +:+ ws1 +:+ s +:+ ws2) rest.
Proof. intros. by apply (unmatched_longer "```" "json"), block_unmatched. Qed.

(** The block starts with no backtick, and with [json] only if the tag
    does. *)
Lemma block_head tag ws1 s rest :
  occurs "`" tag = false → blank ws1 = true → startswith s "{" = true →
  startswith (tag +:+ ws1 +:+ s +:+ rest) "`" = false ∧
  startswith (tag +:+ ws1 +:+ s +:+ rest) "json" = startswith tag "json".
Proof.
  intros Htag Hws1 [s1 ->]%startswith_inv. rewrite (app_cons _ "" s1), app_nil_l.
  assert (∃ c r, ws1 +:+ String "{" s1 +:+ rest = String c r ∧
                 bool_decide (c = "`"%char) = false ∧
                 occurs (String c "") "json" = false) as (c & r & -> & Hc & Hj).
  { destruct ws1 as [|w ws1']; unfold_app.
    - by exists "{"%char, (s1 +:+ rest).
    - exists w, (ws1' +:+ String "{" (s1 +:+ rest)).
      cbn [blank] in Hws1. apply andb_true_iff in Hws1 as [Hw _].
      split; [done|].
      split; [apply bool_decide_eq_false; by intros ->|].
      cbn. rewrite !andb_true_r.
      rewrite !bool_decide_eq_false_2; [done|by intros <-..]. }
  split; [|by apply startswith_stop].
  destruct tag as [|t tag']; unfold_app; cbn.
  - by rewrite Hc.
  - rewrite occurs_char_cons in Htag.
    apply orb_false_elim in Htag as [Ht _]. by rewrite Ht.
Qed.

(** Stripping the block and cutting before the first brace leaves [s]. *)
Lemma block_recovered tag ws1 s ws2 :
  occurs "{" tag = false → blank ws1 = true → blank ws2 = true →
  startswith s "{" = true → endswith s "}" = true →
  remove_after_last_brace
    (remove_before_first_brace (strip (tag +:+ ws1 +:+ s +:+ ws2))) = s.
Proof.
  intros Htag Hws1 Hws2 Hs1 Hs2.
  rewrite remove_after_last_brace_id. unfold strip.
  rewrite <- (app_assoc tag ws1), rstrip_after_brace by done.
  rewrite lstrip_before_brace by done.
  apply cut_before_brace; [|done].
  apply occurs_lstrip. rewrite occurs_char_app, Htag.
  by apply blank_free.
Qed.

(** The fenced answer, once the outer whitespace is gone: the three
    clean-up steps return the text between the fences. *)
Lemma clean_response_fenced lead tag ws1 s ws2 trail :
  occurs "```" lead = false → endswith lead "`" = false →
  occurs "`" tag = false → occurs "{" tag = false →
  blank ws1 = true → blank ws2 = true →
  startswith s "{" = true → endswith s "}" = true → occurs "```" s = false →
  occurs "```json" ("```" +:+ trail) = false →
  clean_response
    (lead +:+ "```" +:+ tag +:+ ws1 +:+ s +:+ ws2 +:+ "```" +:+ trail) = Ok s.
Proof.
  intros Hlead Hlead' Htag Htag' Hws1 Hws2 Hs1 Hs2 Hs3 Htrail.
  apply occurs_unmatched in Htrail.
  assert (Hl : ∀ rest, unmatched "```" lead rest) by (intros; by apply unmatched_lead).
  assert (Hlj : ∀ rest, unmatched "```json" lead rest)
    by (intros; apply (unmatched_longer "```" "json"), Hl).
  unfold clean_response, remove_code_blocks, split.
  destruct (startswith tag "json") eqn:Hjson.
  - (* a json fence *)
    destruct (startswith_inv tag "json" Hjson) as [rest ->].
    rewrite occurs_char_app in Htag, Htag'.
    apply orb_false_elim in Htag as [_ Htag].
    apply orb_false_elim in Htag' as [_ Htag'].
    set (block := rest +:+ ws1 +:+ s +:+ ws2).
    replace (lead +:+ "```" +:+ ("json" +:+ rest) +:+ ws1 +:+ s +:+ ws2 +:+ "```" +:+ trail)
      with (lead +:+ "```json" +:+ block +:+ "```" +:+ trail)
      by (subst block; by rewrite !app_assoc).
    rewrite occurs_app.
    rewrite split_go_first by done.
    rewrite split_go_none
      by (apply unmatched_app; [by apply block_unmatched_json|done]).
    cbn [piece lookup list_lookup mbind result_bind mret result_ret].
    rewrite split_go_first by (done || by apply block_unmatched).
    cbn [piece lookup list_lookup mbind result_bind mret result_ret].
    subst block. by rewrite block_recovered.
  - (* a bare fence, or another language tag *)
    set (block := tag +:+ ws1 +:+ s +:+ ws2).
    replace (lead +:+ "```" +:+ tag +:+ ws1 +:+ s +:+ ws2 +:+ "```" +:+ trail)
      with (lead +:+ "```" +:+ block +:+ "```" +:+ trail)
      by (subst block; by rewrite !app_assoc).
    rewrite (unmatched_occurs "```json").
    2: done.
    2:{ apply unmatched_app; [done|].
        apply unmatched_app;
          [|apply unmatched_app; [by apply block_unmatched_json|done]].
        rewrite app_nil_r. subst block. rewrite !app_assoc.
        destruct (block_head tag ws1 s (ws2 +:+ "```" +:+ trail) Htag Hws1 Hs1)
          as [Hb Hj].
        apply fence_unmatched; [by rewrite Hj|done]. }
    rewrite occurs_app.
    rewrite split_go_first by done.
    rewrite split_go_first by (done || by apply block_unmatched).
    cbn [piece lookup list_lookup mbind result_bind mret result_ret].
    rewrite split_go_none by (by apply block_unmatched).
    cbn [piece lookup list_lookup mbind result_bind mret result_ret].
    subst block. by rewrite block_recovered.
Qed.

(** [strip] on a text with a fence at both ends of its middle part. *)
Lemma strip_fenced lead x trail :
  strip (lead +:+ "```" +:+ x +:+ "```" +:+ trail) =
    lstrip lead +:+ "```" +:+ x +:+ "```" +:+ rstrip trail.
Proof.
  unfold strip.
  replace (lead +:+ "```" +:+ x +:+ "```" +:+ trail)
    with ((lead +:+ "```" +:+ x +:+ "``") +:+ String "`" trail)
    by (by rewrite !app_assoc).
  rewrite rstrip_keeps by done. rewrite !app_assoc. unfold_app.
  rewrite lstrip_keeps by done. done.
Qed.

(** The whole recovery on a fenced answer. *)
Lemma clean_response_strip_fenced lead tag ws1 s ws2 trail :
  occurs "```" lead = false → endswith lead "`" = false →
  occurs "`" tag = false → occurs "{" tag = false →
  blank ws1 = true → blank ws2 = true →
  startswith s "{" = true → endswith s "}" = true → occurs "```" s = false →
  occurs "```json" ("```" +:+ trail) = false →
  clean_response
    (strip (lead +:+ "```" +:+ tag +:+ ws1 +:+ s +:+ ws2 +:+ "```" +:+ trail)) = Ok s.
Proof.
  intros Hlead Hlead' Htag Htag' Hws1 Hws2 Hs1 Hs2 Hs3 Htrail.
  replace (lead +:+ "```" +:+ tag +:+ ws1 +:+ s +:+ ws2 +:+ "```" +:+ trail)
    with (lead +:+ "```" +:+ (tag +:+ ws1 +:+ s +:+ ws2) +:+ "```" +:+ trail)
    by (by rewrite !app_assoc).
  rewrite strip_fenced, !app_assoc.
  apply clean_response_fenced; try done.
  - by apply occurs_lstrip_any.
  - by apply endswith_lstrip.
  - destruct (rstrip_prefix trail) as [w Hw]. rewrite Hw in Htrail.
    rewrite <- app_assoc in Htrail. by apply occurs_prefix in Htrail.
Qed.

(** ** generate_ai_insights *)

Lemma split_go_nonempty sep k s : split_go sep k s ≠ [].
Proof.
  revert k. induction s as [|c s IH]; intros k; [done|]. cbn [split_go].
  destruct k; [|apply IH]. destruct (startswith (String c s) sep); [done|].
  specialize (IH 0%nat). by destruct (split_go sep 0 s).
Qed.

Lemma split_go_two sep s :
  sep ≠ "" → occurs sep s = true → ∃ p q l, split_go sep 0 s = p :: q :: l.
Proof.
  intros Hsep. induction s as [|c s IH]; cbn [occurs].
  - by destruct sep.
  - cbn [split_go]. destruct (startswith (String c s) sep) eqn:E.
    + intros _. pose proof (split_go_nonempty sep (String.length sep - 1) s) as Hn.
      destruct (split_go sep (String.length sep - 1) s) as [|q l]; [done|]. eauto.
    + cbn [orb]. intros H. destruct (IH H) as (p & q & l & ->). eauto.
Qed.

(** The clean-up never raises: where a fence marker occurs, [split] gives at
    least two pieces. *)
Lemma clean_response_returns text : ∃ cleaned, clean_response text = Ok cleaned.
Proof.
  assert (Hpiece : ∀ t sep, sep ≠ "" → occurs sep t = true →
            ∃ cleaned,
              (after ← piece (split t sep) 1;
               inner ← piece (split after "```") 0;
               mret (strip inner)) = Ok cleaned).
  { intros t sep Hsep Ho. unfold split.
    destruct (split_go_two sep t Hsep Ho) as (p & q & l & ->).
    cbn [piece lookup list_lookup mbind result_bind mret result_ret].
    pose proof (split_go_nonempty "```" 0 q) as Hn.
    destruct (split_go "```" 0 q) as [|inner ?]; [done|].
    cbn. eauto. }
  unfold clean_response, remove_code_blocks.
  destruct (occurs "```json" text) eqn:E1.
  - destruct (Hpiece text "```json" ltac:(done) E1) as [cleaned ->]. cbn. eauto.
  - destruct (occurs "```" text) eqn:E2.
    + destruct (Hpiece text "```" ltac:(done) E2) as [cleaned ->]. cbn. eauto.
    + cbn. eauto.
Qed.

(** With a well-formed key, a client and an answer, the result is decided
    by the cleaned text. *)
Lemma insights_of_answer
    (OpenAI : string → result string ())
    (chat_completions_create : string → gmap string pyval → result string (option string))
    (json_loads : string → option json)
    (data : gmap string pyval) (api_key content cleaned : string) :
  api_key ≠ "" → startswith api_key "sk-" = true →
  OpenAI api_key = Ok () →
  chat_completions_create api_key data = Ok (Some content) →
  clean_response (strip content) = Ok cleaned →
  generate_ai_insights OpenAI chat_completions_create json_loads data api_key =
    (match json_loads cleaned with
     | Some value => value
     | None => fallback_insights
     end,
     [ClientConstructed api_key; ChatCompletionRequested api_key]).
Proof.
  intros Hkey Hsk Hclient Hchat Hclean. unfold generate_ai_insights, request_insights.
  rewrite bool_decide_eq_false_2 by done. rewrite Hsk, Hclient, Hchat.
  cbn [negb mbind result_bind]. by rewrite Hclean.
Qed.






(** C8: an API key that is empty or does not start with sk- gets a
    credential error record, and nothing reaches the OpenAI library: no
    client is constructed and no chat completion is requested. *)
Theorem credential_guard
    (OpenAI : string → result string ())
    (chat_completions_create : string → gmap string pyval → result string (option string))
    (json_loads : string → option json)
    (data : gmap string pyval) (api_key : string) :
  api_key = "" ∨ startswith api_key "sk-" = false →
  generate_ai_insights OpenAI chat_completions_create json_loads data api_key =
    (error_record
       (if bool_decide (api_key = "")
        then "Please provide an OpenAI API key for Pro mode analysis."
        else "Invalid API key format. OpenAI API keys should start with 'sk-'"),
     []).
Proof.
  intros H. unfold generate_ai_insights.
  destruct (bool_decide (api_key = "")) eqn:E; [done|].
  destruct H as [Hk | Hk].
  - by rewrite Hk in E.
  - by rewrite Hk.
Qed.

Lemma credential_guard_witness :
  generate_ai_insights refuses_client refuses_chat Json.loads sample_form "" =
    (error_record "Please provide an OpenAI API key for Pro mode analysis.", []) ∧
  generate_ai_insights refuses_client refuses_chat Json.loads sample_form "pk-test" =
    (error_record "Invalid API key format. OpenAI API keys should start with 'sk-'", []).
Proof.
  split.
  - apply (credential_guard refuses_client refuses_chat Json.loads sample_form "").
    by left.
  - apply (credential_guard refuses_client refuses_chat Json.loads sample_form "pk-test").
    right. by vm_compute.
Defined.

(** C9: the fallback record carries the key error with the value
    JSON parsing failed, so the membership tests on error classify it as an
    error response: the handler replaces it by an empty dictionary, the
    handler passes None to the PDF generator, and the PDF generator's own
    guard skips the AI section. *)
Theorem fallback_is_treated_as_error :
  json_get fallback_insights "error" = Some (JStr "JSON parsing failed") ∧
  contains "error" fallback_insights = Ok true ∧
  (∀ (OpenAI : string → result string ())
     (chat_completions_create : string → gmap string pyval → result string (option string))
     (json_loads : string → option json) (render_insights : json → bool)
     (session : SessionState) (form_data : gmap string pyval),
     mode session = Pro → api_key session ≠ "" →
     (generate_ai_insights OpenAI chat_completions_create json_loads
        form_data (api_key session)).1 = fallback_insights →
     (checked_insights OpenAI chat_completions_create json_loads render_insights
        session form_data).1 = JObj []) ∧
  (∀ session, pdf_argument session fallback_insights = Ok None) ∧
  pdf_ai_section (Some fallback_insights) = Ok false.
Proof.
  split; [done|]. split; [done|]. split; [|split; [|done]].
  - intros OpenAI chat loads render session form_data Hmode Hkey Hgen.
    unfold checked_insights. rewrite Hmode, bool_decide_eq_false_2 by done.
    cbn [negb].
    destruct (generate_ai_insights OpenAI chat loads form_data (api_key session))
      as [ai calls].
    cbn in Hgen. by subst ai.
  - intros [[] key]; done.
Qed.

Lemma fallback_is_treated_as_error_witness :
  checked_insights any_client (answers truncated_answer) Json.loads (λ _, true)
    pro_session sample_form =
  (JObj [], [ClientConstructed "sk-test"; ChatCompletionRequested "sk-test"]).
Proof.
  destruct fallback_is_treated_as_error as (_ & _ & Hhandler & _).
  specialize (Hhandler any_client (answers truncated_answer) Json.loads (λ _, true)
                pro_session sample_form).
  destruct (checked_insights any_client (answers truncated_answer) Json.loads
              (λ _, true) pro_session sample_form) as [ai calls] eqn:E.
  cbn in Hhandler. rewrite Hhandler; [|done|done|by vm_compute].
  vm_compute in E. by injection E as _ <-.
Defined.

(** * Further properties of the code *)

(** ** calculate_comprehensive_metrics *)



(** The fields the calculator reads on every path. *)
Lemma get_text data k s d : data !! k = Some (VStr s) → get data k d = Raise TypeError.
Proof. intros H. unfold get. by rewrite H. Qed.

Ltac raise_at H :=
  rewrite ?(get_text _ _ _ _ H);
  repeat first
    [ progress cbn [mbind result_bind mret result_ret]
    | match goal with
      | |- context [get ?d ?k ?x] => destruct (get d k x)
      | |- context [py_div ?a ?b] => destruct (py_div a b)
      end ];
  eauto.

Lemma metrics_body_raises data :
  (∃ e, unit_economics data = Raise e) ∨
  (∃ e, burn_multiple_of data = Raise e) ∨
  (∀ ratio, ∃ e, efficiency_score_of data ratio = Raise e) ∨
  (∃ e, growth_score_of data = Raise e) ∨
  (∃ e, market_score_of data = Raise e) ∨
  (∃ e, team_score_of data = Raise e) ∨
  (∃ e, traction_score_of data = Raise e) ∨
  (∃ e, risk_score_of data = Raise e) →
  calculate_comprehensive_metrics data = error_metrics.
Proof.
  intros H. unfold calculate_comprehensive_metrics, metrics_body.
  destruct (unit_economics data) as [[ratio payback]|] eqn:E1; [|done].
  destruct H as [[e H]|H]; [done|].
  cbn [mbind result_bind mret result_ret].
  destruct (burn_multiple_of data) eqn:E2; [|done].
  destruct H as [[e H]|H]; [done|].
  destruct (efficiency_score_of data ratio) eqn:E3; [|done].
  destruct H as [H|H]; [destruct (H ratio) as [e He]; congruence|].
  destruct (growth_score_of data) eqn:E4; [|done].
  destruct H as [[e H]|H]; [done|].
  destruct (market_score_of data) eqn:E5; [|done].
  destruct H as [[e H]|H]; [done|].
  destruct (team_score_of data) eqn:E6; [|done].
  destruct H as [[e H]|H]; [done|].
  destruct (traction_score_of data) eqn:E7; [|done].
  destruct H as [[e H]|[e H]]; [done|].
  by rewrite H.
Qed.

(** X2: A text under a numeric field that every path reads sends the
    calculator to its except branch: all ten entries are 0, the payback
    period and the burn multiple included. *)
Theorem text_in_numeric_field_zeroes_metrics
    (data : gmap string pyval) (k s : string) :
  k ∈ ["cac"; "burn_rate"; "gross_margin"; "monthly_growth_rate"; "tam";
       "team_size"; "technical_team"; "advisors_count"; "current_customers";
       "arr"; "funding_raised"; "runway_months"; "churn_rate"] →
  data !! k = Some (VStr s) →
  calculate_comprehensive_metrics data = error_metrics.
Proof.
  intros Hk H. apply metrics_body_raises.
  repeat (apply elem_of_cons in Hk as [-> | Hk]).
  - left. unfold unit_economics. raise_at H.
  - right; left. unfold burn_multiple_of. raise_at H.
  - do 2 right; left. intros ratio. unfold efficiency_score_of. raise_at H.
  - do 3 right; left. unfold growth_score_of. raise_at H.
  - do 4 right; left. unfold market_score_of. raise_at H.
  - do 5 right; left. unfold team_score_of. raise_at H.
  - do 5 right; left. unfold team_score_of. raise_at H.
  - do 5 right; left. unfold team_score_of. raise_at H.
  - do 6 right; left. unfold traction_score_of. raise_at H.
  - do 6 right; left. unfold traction_score_of. raise_at H.
  - do 6 right; left. unfold traction_score_of. raise_at H.
  - do 7 right. unfold risk_score_of. raise_at H.
  - do 7 right. unfold risk_score_of. raise_at H.
  - by apply elem_of_nil in Hk.
Qed.

Lemma text_in_numeric_field_zeroes_metrics_witness :
  calculate_comprehensive_metrics text_margin_form = error_metrics.
Proof.
  apply (text_in_numeric_field_zeroes_metrics text_margin_form "gross_margin" "fifty").
  - set_solver.
  - by vm_compute.
Defined.

(** Two proposals with the same numeric entries: every read of the first is
    replaced by the same read of the second. *)
Ltac same_reads H :=
  unfold calculate_comprehensive_metrics, metrics_body, unit_economics,
    burn_multiple_of, efficiency_score_of, growth_score_of, market_score_of,
    team_score_of, traction_score_of, risk_score_of;
  unfold get, item;
  repeat match goal with
  | |- context [?d !! ?k] =>
      lazymatch type of (H k) with
      | _ → d !! k = _ => rewrite (H k) by compute_done
      end
  end;
  reflexivity.

(** X3: The calculator reads the sixteen numeric fields and nothing else: two
    proposals that agree on them get the same metric set. *)
Theorem metrics_depend_on_numeric_fields (data data' : gmap string pyval) :
  (∀ k, k ∈ numeric_fields → data !! k = data' !! k) →
  calculate_comprehensive_metrics data = calculate_comprehensive_metrics data'.
Proof. intros H. same_reads H. Qed.

Lemma metrics_depend_on_numeric_fields_witness :
  calculate_comprehensive_metrics (<["company_name" := VStr "Other"]> sample_form) =
  calculate_comprehensive_metrics sample_form.
Proof.
  apply (metrics_depend_on_numeric_fields
           (<["company_name" := VStr "Other"]> sample_form) sample_form).
  intros k Hk. each_field Hk; reflexivity.
Defined.

(** *** An absent key and a zero *)

Lemma get_insert_ne data k v k' d :
  k ≠ k' → get (<[k := v]> data) k' d = get data k' d.
Proof. intros H. unfold get. by rewrite lookup_insert_ne. Qed.

Lemma item_insert_ne data k v k' :
  k ≠ k' → item (<[k := v]> data) k' = item data k'.
Proof. intros H. unfold item. by rewrite lookup_insert_ne. Qed.

Lemma get_insert_num data k q d : get (<[k := VNum q]> data) k d = Ok q.
Proof. unfold get. by rewrite lookup_insert_eq. Qed.

Lemma item_insert_num data k q : item (<[k := VNum q]> data) k = Ok q.
Proof. unfold item. by rewrite lookup_insert_eq. Qed.

Lemma get_absent data k d : data !! k = None → get data k d = Ok d.
Proof. intros H. unfold get. by rewrite H. Qed.

Lemma num_gt_0_0 : num_gt 0 0 = false.
Proof. reflexivity. Qed.

Lemma py_max_0_1 : py_max 0 1 = 1.
Proof. reflexivity. Qed.

Lemma py_max_1_1 : py_max 1 1 = 1.
Proof. reflexivity. Qed.

(** Both sides run the same code: step over the common head. *)
Ltac same_code :=
  repeat first
    [ match goal with |- ?x = ?x => reflexivity end
    | progress cbn [mbind result_bind mret result_ret]
    | progress rewrite ?num_gt_0_0, ?py_max_0_1, ?py_max_1_1
    | match goal with
      | |- match ?e with Ok _ => _ | Raise _ => _ end = _ => destruct e
      | |- (if ?b then _ else _) = _ => destruct b
      | |- (let (_, _) := ?p in _) = _ => destruct p
      end ].

(** The key [k] against the literal keys of a block, one after the other. *)
Ltac absent_case Hnone lit :=
  match goal with
  | Hnone : ?data !! ?k = None |- _ =>
      destruct (decide (k = lit)) as [->|?];
      [ rewrite ?get_insert_num, ?item_insert_num, ?(get_absent _ _ _ Hnone);
        rewrite ?get_insert_ne, ?item_insert_ne by done;
        same_code
      | ]
  end.

Ltac absent_rest :=
  rewrite ?get_insert_ne, ?item_insert_ne by done; reflexivity.

Section AbsentKey.

Variable data : gmap string pyval.
Variable k : string.
Hypothesis absent : data !! k = None.

Lemma unit_economics_absent :
  unit_economics (<[k := VNum 0]> data) = unit_economics data.
Proof.
  unfold unit_economics.
  absent_case absent "cac". absent_case absent "ltv". absent_case absent "arr".
  absent_case absent "current_customers". absent_rest.
Qed.

Lemma burn_multiple_of_absent :
  burn_multiple_of (<[k := VNum 0]> data) = burn_multiple_of data.
Proof.
  unfold burn_multiple_of.
  absent_case absent "burn_rate". absent_case absent "current_mrr".
  absent_case absent "monthly_growth_rate". absent_rest.
Qed.

Lemma efficiency_score_of_absent ratio :
  efficiency_score_of (<[k := VNum 0]> data) ratio = efficiency_score_of data ratio.
Proof. unfold efficiency_score_of. absent_case absent "gross_margin". absent_rest. Qed.

Lemma growth_score_of_absent :
  growth_score_of (<[k := VNum 0]> data) = growth_score_of data.
Proof. unfold growth_score_of. absent_case absent "monthly_growth_rate". absent_rest. Qed.

Lemma market_score_of_absent :
  market_score_of (<[k := VNum 0]> data) = market_score_of data.
Proof.
  unfold market_score_of. absent_case absent "tam". absent_case absent "som".
  absent_rest.
Qed.

Lemma team_score_of_absent :
  team_score_of (<[k := VNum 0]> data) = team_score_of data.
Proof.
  unfold team_score_of. absent_case absent "team_size".
  absent_case absent "technical_team". absent_case absent "advisors_count".
  absent_rest.
Qed.

Lemma traction_score_of_absent :
  traction_score_of (<[k := VNum 0]> data) = traction_score_of data.
Proof.
  unfold traction_score_of. absent_case absent "current_customers".
  absent_case absent "arr". absent_case absent "funding_raised". absent_rest.
Qed.

Lemma risk_score_of_absent :
  risk_score_of (<[k := VNum 0]> data) = risk_score_of data.
Proof.
  unfold risk_score_of. absent_case absent "runway_months".
  absent_case absent "churn_rate". absent_rest.
Qed.

End AbsentKey.

(** X4: An absent key scores like a 0 under that key. *)
Theorem absent_key_scores_as_zero (data : gmap string pyval) (k : string) :
  data !! k = None →
  calculate_comprehensive_metrics (<[k := VNum 0]> data) =
  calculate_comprehensive_metrics data.
Proof.
  intros Hnone. unfold calculate_comprehensive_metrics, metrics_body.
  rewrite (unit_economics_absent data k Hnone).
  destruct (unit_economics data) as [[ratio payback]|]; [|reflexivity].
  cbn [mbind result_bind mret result_ret].
  rewrite (burn_multiple_of_absent data k Hnone),
    (efficiency_score_of_absent data k Hnone),
    (growth_score_of_absent data k Hnone), (market_score_of_absent data k Hnone),
    (team_score_of_absent data k Hnone), (traction_score_of_absent data k Hnone),
    (risk_score_of_absent data k Hnone).
  reflexivity.
Qed.

Lemma absent_key_scores_as_zero_witness :
  calculate_comprehensive_metrics (<["churn_rate" := VNum 0]> no_churn_key_form) =
  calculate_comprehensive_metrics no_churn_key_form.
Proof.
  apply (absent_key_scores_as_zero no_churn_key_form "churn_rate"). by vm_compute.
Defined.

(** *** Payback period and growth score *)

Lemma py_max_default data k : py_max (field_or data k 1) 1 = py_max (field data k) 1.
Proof. unfold field_or. by destruct (data !! k) as [[s|q]|]. Qed.



Lemma growth_score_of_value data :
  numeric data →
  growth_score_of data =
    Ok (let rate := field data "monthly_growth_rate" in
        if num_ge rate 20 then 100
        else if num_ge rate 10 then 80
        else if num_ge rate 5 then 60
        else rate * 10).
Proof.
  intros Hn. unfold growth_score_of. run Hn. cbn zeta.
  repeat (branch E; [reflexivity|]). reflexivity.
Qed.



(** ** The submission handler *)

(** Which areas the list holds, check by check. *)
Lemma recommendations_of_areas (metrics : Metrics) (form_data : gmap string pyval) :
  form_built form_data →
  ∃ recommendations,
    recommendations_of metrics form_data = Ok recommendations ∧
    bool_decide ("Unit Economics" ∈ area <$> recommendations) =
      num_lt (ltv_cac_ratio metrics) 3 ∧
    bool_decide ("Financial Health" ∈ area <$> recommendations) =
      num_lt (field form_data "runway_months") 18 ∧
    bool_decide ("Business Model" ∈ area <$> recommendations) =
      num_lt (field form_data "gross_margin") 70 ∧
    bool_decide ("Growth" ∈ area <$> recommendations) =
      num_lt (field form_data "monthly_growth_rate") 10 ∧
    bool_decide ("Customer Retention" ∈ area <$> recommendations) =
      num_gt (field form_data "churn_rate") 5.
Proof.
  intros Hb. unfold recommendations_of.
  rewrite !(item_built _ _ Hb) by compute_done.
  cbn [mbind result_bind mret result_ret].
  eexists; split; [reflexivity|].
  destruct (num_lt (ltv_cac_ratio metrics) 3),
    (num_lt (field form_data "runway_months") 18),
    (num_lt (field form_data "gross_margin") 70),
    (num_lt (field form_data "monthly_growth_rate") 10),
    (num_gt (field form_data "churn_rate") 5);
    repeat split; reflexivity.
Qed.

Lemma Qdiv_lt_iff a b c : 0 < b → a / b < c ↔ a < c * b.
Proof.
  intros Hb. split; [|by apply Qlt_shift_div_r].
  intros H. apply (Qmult_lt_r _ _ b Hb) in H.
  assert (E : a / b * b == a) by (field; lra).
  by rewrite E in H.
Qed.



(** X8: The status column and the recommendation list agree: a benchmark of
    the Financial Analysis table carries the cross exactly when the list
    advises on its area.  (The burn multiple, second in the table, has no
    recommendation.) *)
Theorem status_matches_recommendations
    (metrics : Metrics) (form_data : gmap string pyval) :
  form_built form_data →
  ∃ status recommendations,
    financial_status metrics form_data = Ok status ∧
    recommendations_of metrics form_data = Ok recommendations ∧
    length status = 6%nat ∧
    status !! 0%nat = Some (bool_decide ("Unit Economics" ∉ area <$> recommendations)) ∧
    status !! 1%nat = Some (xnum_le (burn_multiple metrics) 2) ∧
    status !! 2%nat = Some (bool_decide ("Financial Health" ∉ area <$> recommendations)) ∧
    status !! 3%nat = Some (bool_decide ("Business Model" ∉ area <$> recommendations)) ∧
    status !! 4%nat = Some (bool_decide ("Growth" ∉ area <$> recommendations)) ∧
    status !! 5%nat = Some (bool_decide ("Customer Retention" ∉ area <$> recommendations)).
Proof.
  intros Hb.
  destruct (recommendations_of_areas metrics form_data Hb)
    as (recs & Hr & H1 & H2 & H3 & H4 & H5).
  unfold financial_status. rewrite !(item_built _ _ Hb) by compute_done.
  cbn [mbind result_bind mret result_ret].
  eexists _, recs. split; [reflexivity|]. split; [done|].
  rewrite !bool_decide_not, H1, H2, H3, H4, H5.
  unfold num_lt, num_gt, num_ge. rewrite !negb_involutive.
  repeat split; reflexivity.
Qed.

Lemma status_matches_recommendations_witness :
  ∃ recommendations,
    financial_status (calculate_comprehensive_metrics sample_form) sample_form =
      Ok [true; false; false; false; true; false] ∧
    recommendations_of (calculate_comprehensive_metrics sample_form) sample_form =
      Ok recommendations ∧
    area <$> recommendations = ["Financial Health"; "Business Model"; "Customer Retention"].
Proof.
  destruct (status_matches_recommendations
              (calculate_comprehensive_metrics sample_form) sample_form)
    as (status & recs & Hs & Hr & _).
  - intros k Hk. each_field Hk; eexists; reflexivity.
  - exists recs. vm_compute in Hs. vm_compute in Hr.
    injection Hr as <-. split; [|split]; [|reflexivity..].
    vm_compute. reflexivity.
Defined.

(** X9: Without Pro mode, or without a key, nothing reaches the OpenAI library
    and the analysis carries an empty dictionary of insights. *)
Theorem no_insights_without_pro_key
    (OpenAI : string → result string ())
    (chat_completions_create : string → gmap string pyval → result string (option string))
    (json_loads : string → option json) (render_insights : json → bool)
    (session : SessionState) (form_data : gmap string pyval) :
  mode session = Light ∨ api_key session = "" →
  checked_insights OpenAI chat_completions_create json_loads render_insights
      session form_data = (JObj [], []) ∧
  (process_submission OpenAI chat_completions_create json_loads render_insights
      session form_data).2 = [].
Proof.
  intros H.
  assert (Hc : checked_insights OpenAI chat_completions_create json_loads
                 render_insights session form_data = (JObj [], [])).
  { unfold checked_insights. destruct H as [-> | ->]; [done|].
    by destruct (mode session). }
  split; [done|]. unfold process_submission. rewrite Hc.
  destruct (negb _); [done|].
  by destruct (recommendations_of _ _).
Qed.

Lemma no_insights_without_pro_key_witness :
  (process_submission any_client (answers score_answer) Json.loads (λ _, true)
     light_session sample_form).2 = [] ∧
  (process_submission any_client (answers score_answer) Json.loads (λ _, true)
     keyless_session sample_form).2 = [].
Proof.
  split.
  - apply (no_insights_without_pro_key any_client (answers score_answer) Json.loads
             (λ _, true) light_session sample_form). by left.
  - apply (no_insights_without_pro_key any_client (answers score_answer) Json.loads
             (λ _, true) keyless_session sample_form). by right.
Defined.

(** X10: A form as the handler builds it ends in exactly one of two ways: the
    list of missing fields when a required field is empty or zero, and
    otherwise an analysis with the metrics of the calculator and the
    recommendation list; the handler's own except branch is not reached. *)
Theorem submission_outcome
    (OpenAI : string → result string ())
    (chat_completions_create : string → gmap string pyval → result string (option string))
    (json_loads : string → option json) (render_insights : json → bool)
    (session : SessionState) (form_data : gmap string pyval) :
  form_built form_data →
  let outcome :=
    (process_submission OpenAI chat_completions_create json_loads render_insights
       session form_data).1 in
  (missing_fields form_data ≠ [] ∧ outcome = MissingFields (missing_fields form_data)) ∨
  (missing_fields form_data = [] ∧
   ∃ recommendations,
     recommendations_of (calculate_comprehensive_metrics form_data) form_data =
       Ok recommendations ∧
     outcome =
       Analysed (calculate_comprehensive_metrics form_data)
         (checked_insights OpenAI chat_completions_create json_loads render_insights
            session form_data).1
         recommendations).
Proof.
  intros Hb outcome. subst outcome. unfold process_submission.
  destruct (recommendations_of_areas (calculate_comprehensive_metrics form_data)
              form_data Hb) as (recs & Hr & _).
  destruct (missing_fields form_data) as [|f l] eqn:E.
  - right. split; [done|]. exists recs. split; [done|].
    rewrite bool_decide_eq_true_2 by done. cbn [negb].
    destruct (checked_insights _ _ _ _ _ _) as [ai calls]. by rewrite Hr.
  - left. split; [done|]. by rewrite bool_decide_eq_false_2.
Qed.

Lemma submission_outcome_witness :
  ∃ recommendations,
    (process_submission any_client (answers score_answer) Json.loads (λ _, true)
       pro_session sample_form).1 =
    Analysed (calculate_comprehensive_metrics sample_form) score_object recommendations.
Proof.
  destruct (submission_outcome any_client (answers score_answer) Json.loads (λ _, true)
              pro_session sample_form) as [[Hm _]|(_ & recs & _ & Ho)].
  - intros k Hk. each_field Hk; eexists; reflexivity.
  - by vm_compute in Hm.
  - exists recs. rewrite Ho. f_equal.
Defined.

(** ** The clean-up of the answer *)

Lemma occurs_char_split x t :
  occurs (String x "") t = true →
  ∃ before after, t = before +:+ String x after ∧ occurs (String x "") before = false.
Proof.
  induction t as [|c t IH]; [done|]. rewrite occurs_char_cons.
  destruct (bool_decide (c = x)) eqn:E.
  - intros _. apply bool_decide_eq_true in E as ->. by exists "", t.
  - cbn [orb]. intros H. destruct (IH H) as (b & a & -> & Hb).
    exists (String c b), a. split; [done|]. by rewrite occurs_char_cons, E, Hb.
Qed.

Lemma find_from_absent x t i :
  occurs (String x "") t = false → find_from (String x "") t i = (-1)%Z.
Proof.
  revert i. induction t as [|c t IH]; intros i; [done|].
  rewrite occurs_char_cons. intros [Hc Ht]%orb_false_elim.
  cbn [find_from startswith]. rewrite Hc. cbn. by apply IH.
Qed.

(** X13: The second step: a text that holds an opening brace is cut just before
    its first one, and what is cut holds no brace; a text without opening
    brace is left as it is. *)
Theorem first_brace_cut (text : string) :
  (occurs "{" text = true →
   ∃ before,
     text = before +:+ remove_before_first_brace text ∧
     occurs "{" before = false ∧
     startswith (remove_before_first_brace text) "{" = true) ∧
  (occurs "{" text = false → remove_before_first_brace text = text).
Proof.
  split.
  - intros (before & after & -> & Hb)%occurs_char_split.
    exists before.
    rewrite (cut_before_brace before (String "{" after)) by done. done.
  - intros H. unfold remove_before_first_brace.
    destruct (startswith text "{"); [done|]. cbn [negb].
    unfold find. rewrite find_from_absent by done. done.
Qed.

Lemma first_brace_cut_witness :
  remove_before_first_brace "Sure, here it is: {} and {}" = "{} and {}" ∧
  remove_before_first_brace "no object here" = "no object here".
Proof.
  destruct (first_brace_cut "Sure, here it is: {} and {}") as [H _].
  destruct H as (before & Ht & _ & _); [by vm_compute|].
  destruct (first_brace_cut "no object here") as [_ H'].
  split; [by vm_compute|]. apply H'. by vm_compute.
Defined.

(** X11: The third step changes nothing: a text that ends with a closing brace
    is already the slice up to its last closing brace. *)
Theorem last_brace_cut_is_noop (cleaned : string) :
  endswith cleaned "}" = true →
  slice_to cleaned (rfind cleaned "}" + 1) = cleaned.
Proof.
  intros H. pose proof (remove_after_last_brace_id cleaned) as Hid.
  unfold remove_after_last_brace in Hid. by rewrite H in Hid.
Qed.

Lemma last_brace_cut_is_noop_witness :
  slice_to "{} and {}" (rfind "{} and {}" "}" + 1) = "{} and {}".
Proof. apply (last_brace_cut_is_noop "{} and {}"). by vm_compute. Defined.

(** X12: The clean-up raises nothing: each index into a split list is guarded
    by the test that the separator occurs, so no answer of the model makes
    it fail with an IndexError. *)
Theorem clean_response_never_raises (text e : string) :
  clean_response text ≠ Raise e.
Proof. destruct (clean_response_returns text) as [cleaned ->]. done. Qed.

(** X14: An answer without code fence skips the first step: it is cut before
    its first opening brace and nothing else changes, whatever follows the
    last closing brace. *)
Theorem unfenced_answer_kept (text : string) :
  occurs "```" text = false →
  clean_response text = Ok (remove_before_first_brace text).
Proof.
  intros H. unfold clean_response, remove_code_blocks.
  rewrite (unmatched_occurs "```json");
    [|done|apply (unmatched_longer "```" "json"); by apply occurs_unmatched].
  rewrite H. cbn [mbind result_bind mret result_ret].
  by rewrite remove_after_last_brace_id.
Qed.

Lemma unfenced_answer_kept_witness :
  clean_response (score_text +:+ " I hope this helps.") =
    Ok (score_text +:+ " I hope this helps.").
Proof.
  rewrite (unfenced_answer_kept (score_text +:+ " I hope this helps."));
    by vm_compute.
Defined.

(** ** generate_ai_insights, all paths *)

Lemma analysis_failure_has_error error_msg :
  contains "error" (analysis_failure error_msg) = Ok true.
Proof.
  unfold analysis_failure.
  destruct (occurs "api_key" (lower error_msg)); [done|].
  by destruct (occurs "rate" (lower error_msg)).
Qed.

(** X15: Every result that is not a decoded answer carries the key error: a
    result without it was decoded by json.loads from the cleaned answer of
    the model, after a request with a well-formed key. *)
Theorem result_without_error_is_decoded
    (OpenAI : string → result string ())
    (chat_completions_create : string → gmap string pyval → result string (option string))
    (json_loads : string → option json)
    (data : gmap string pyval) (api_key : string) :
  let insights :=
    (generate_ai_insights OpenAI chat_completions_create json_loads data api_key).1 in
  contains "error" insights ≠ Ok true →
  api_key ≠ "" ∧ startswith api_key "sk-" = true ∧
  ∃ content cleaned,
    chat_completions_create api_key data = Ok (Some content) ∧
    clean_response (strip content) = Ok cleaned ∧
    json_loads cleaned = Some insights.
Proof.
  cbn zeta. unfold generate_ai_insights, request_insights.
  destruct (bool_decide (api_key = "")) eqn:Hkey; [done|].
  apply bool_decide_eq_false in Hkey.
  destruct (startswith api_key "sk-") eqn:Hsk; [|done]. cbn [negb].
  destruct (OpenAI api_key) as [[]|e].
  2:{ cbn. by rewrite analysis_failure_has_error. }
  destruct (chat_completions_create api_key data) as [[content|]|e].
  2,3: cbn; by rewrite analysis_failure_has_error.
  cbn [mbind result_bind fst].
  destruct (clean_response (strip content)) as [cleaned|e] eqn:Hclean.
  2:{ by rewrite analysis_failure_has_error. }
  destruct (json_loads cleaned) as [value|] eqn:Hloads; [|done].
  intros _. split; [done|]. split; [done|]. by exists content, cleaned.
Qed.

Lemma result_without_error_is_decoded_witness :
  ∃ content cleaned,
    answers score_answer "sk-test" sample_form = Ok (Some content) ∧
    clean_response (strip content) = Ok cleaned ∧
    Json.loads cleaned = Some score_object.
Proof.
  destruct (result_without_error_is_decoded any_client (answers score_answer)
              Json.loads sample_form "sk-test") as (_ & _ & content & cleaned & H1 & H2 & H3).
  - by vm_compute.
  - exists content, cleaned. split; [exact H1|]. split; [exact H2|].
    rewrite H3. by vm_compute.
Defined.

(** ** URL detection and enrichment *)

Lemma search_or_findall (text : string) :
  is_valid_url text = negb (bool_decide (findall_go 0 text = [])).
Proof.
  induction text as [|c text IH]; [done|].
  cbn [is_valid_url findall_go].
  destruct (match_url (String c text)) as [n|] eqn:E.
  - by rewrite bool_decide_eq_true_2 by eauto.
  - rewrite bool_decide_eq_false_2 by (by intros [? ?]). exact IH.
Qed.

(** X16: [is_valid_url] and [extract_urls_from_text] agree: a text is reported
    to hold a URL exactly when the list of its URLs is not empty (so the
    inner test on an empty list in [process_text_with_urls] never fires
    after the first one). *)
Theorem valid_url_iff_urls_found (text : string) :
  is_valid_url text = true ↔ extract_urls_from_text text ≠ [].
Proof.
  unfold extract_urls_from_text.
  by rewrite search_or_findall, negb_true_iff, bool_decide_eq_false.
Qed.

Lemma url_run_take r : url_run (take_chars (url_run r) r) = url_run r.
Proof.
  induction r as [|c r IH]; [done|]. cbn [url_run].
  destruct (url_char c) eqn:E; [|done]. cbn [take_chars url_run].
  by rewrite E, IH.
Qed.

Lemma length_take_run r : String.length (take_chars (url_run r) r) = url_run r.
Proof.
  induction r as [|c r IH]; [done|]. cbn [url_run].
  destruct (url_char c) eqn:E; [|done]. cbn [take_chars String.length].
  by rewrite IH.
Qed.

Lemma startswith_take n s : startswith s (take_chars n s) = true.
Proof.
  revert s. induction n as [|n IH]; intros [|c s]; try done.
  cbn. by rewrite bool_decide_eq_true_2, IH.
Qed.

(** The shape of a match: a scheme and a non-empty run of URL characters. *)
Lemma match_url_shape s n :
  match_url s = Some n →
  ∃ scheme rest,
    take_chars n s = scheme +:+ rest ∧
    (scheme = "http://" ∨ scheme = "https://") ∧
    rest ≠ "" ∧ url_run rest = String.length rest.
Proof.
  unfold match_url.
  destruct (startswith s "https://") eqn:E1.
  - destruct (startswith_inv _ _ E1) as [r ->].
    change (drop_chars 8 ("https://" +:+ r)) with r.
    destruct (url_run r =? 0)%nat eqn:E; [done|]. intros [= <-].
    exists "https://", (take_chars (url_run r) r).
    split; [reflexivity|]. split; [by right|].
    rewrite url_run_take, length_take_run. split; [|done].
    apply Nat.eqb_neq in E. intros H.
    apply (f_equal String.length) in H. rewrite length_take_run in H. done.
  - destruct (startswith s "http://") eqn:E2; [|done].
    destruct (startswith_inv _ _ E2) as [r ->].
    change (drop_chars 7 ("http://" +:+ r)) with r.
    destruct (url_run r =? 0)%nat eqn:E; [done|]. intros [= <-].
    exists "http://", (take_chars (url_run r) r).
    split; [reflexivity|]. split; [by left|].
    rewrite url_run_take, length_take_run. split; [|done].
    apply Nat.eqb_neq in E. intros H.
    apply (f_equal String.length) in H. rewrite length_take_run in H. done.
Qed.

Lemma findall_go_occurs skip text url :
  url ∈ findall_go skip text → occurs url text = true.
Proof.
  revert skip. induction text as [|c text IH]; intros skip; cbn [findall_go].
  - by intros ?%elem_of_nil.
  - intros H. cbn [occurs].
    destruct skip as [|k]; [|by rewrite (IH k H), orb_true_r].
    destruct (match_url (String c text)) as [n|].
    + apply elem_of_cons in H as [-> | H].
      * by rewrite startswith_take.
      * by rewrite (IH _ H), orb_true_r.
    + by rewrite (IH _ H), orb_true_r.
Qed.

Lemma findall_go_shape skip text url :
  url ∈ findall_go skip text →
  ∃ scheme rest,
    url = scheme +:+ rest ∧ (scheme = "http://" ∨ scheme = "https://") ∧
    rest ≠ "" ∧ url_run rest = String.length rest.
Proof.
  revert skip. induction text as [|c text IH]; intros skip; cbn [findall_go].
  - by intros ?%elem_of_nil.
  - intros H. destruct skip as [|k]; [|by apply (IH k)].
    destruct (match_url (String c text)) as [n|] eqn:E; [|by apply (IH 0%nat)].
    apply elem_of_cons in H as [-> | H]; [|by apply (IH _ H)].
    by apply match_url_shape.
Qed.

(** X17: Every extracted URL is a piece of the text, starts with http:// or
    https://, and goes on with at least one character, all of them
    characters of the pattern (so it holds no space, quote or brace). *)
Theorem extracted_urls_shape (text url : string) :
  url ∈ extract_urls_from_text text →
  occurs url text = true ∧
  ∃ scheme rest,
    url = scheme +:+ rest ∧ (scheme = "http://" ∨ scheme = "https://") ∧
    rest ≠ "" ∧ url_run rest = String.length rest.
Proof.
  intros H. split; [by apply (findall_go_occurs 0)|by apply (findall_go_shape 0 text)].
Qed.

Lemma extracted_urls_shape_witness :
  occurs "https://b.org/x?y=1" "see https://b.org/x?y=1 (and more)" = true.
Proof.
  apply (extracted_urls_shape "see https://b.org/x?y=1 (and more)" "https://b.org/x?y=1").
  vm_compute. apply list_elem_of_here.
Defined.

Section UrlFacts.

Variable fetch_url_content : string → string.

Abbreviation process := (process_text_with_urls fetch_url_content).

Lemma foldl_append (f : string → string) (urls : list string) (combined : string) :
  ∃ tail,
    foldl (λ combined url, combined +:+ newline +:+ f url +:+ newline) combined urls =
    combined +:+ tail.
Proof.
  revert combined. induction urls as [|url urls IH]; intros combined; cbn [foldl].
  - exists "". by rewrite app_nil_r.
  - destruct (IH (combined +:+ newline +:+ f url +:+ newline)) as [tail ->].
    exists (newline +:+ f url +:+ newline +:+ tail). by rewrite !app_assoc.
Qed.

(** The three ways out of [process_text_with_urls]: an empty text or one
    without URL, an empty list of URLs, and the loop. *)
Ltac process_cases text :=
  unfold process_text_with_urls, extract_urls_from_text;
  rewrite (search_or_findall text);
  destruct (bool_decide (text = "")) eqn:Hempty;
    [apply bool_decide_eq_true in Hempty as ->; cbn|];
  [|destruct (findall_go 0 text) as [|url urls] eqn:Hurls; cbn].

Lemma process_fetched (text : string) :
  (process text).2 = take 3 (extract_urls_from_text text).
Proof. process_cases text; done. Qed.

Lemma process_prefix (text : string) : startswith (process text).1 text = true.
Proof.
  process_cases text; [done|apply startswith_refl|].
  destruct (foldl_append fetch_url_content (take 2 urls)
              ((text +:+ newline +:+ newline +:+
                "--- Additional Content from URLs ---" +:+ newline) +:+
               newline +:+ fetch_url_content url +:+ newline)) as [tail ->].
  rewrite !app_assoc. apply startswith_app.
Qed.

Lemma process_unchanged (text : string) :
  (process text).2 = [] → (process text).1 = text.
Proof. process_cases text; done. Qed.

(** X18: At most three URLs are fetched, the first three of the text, in order;
    the text itself is kept in front of what is added, and nothing is added
    when nothing is fetched. *)
Theorem process_text_with_urls_bounds (text : string) :
  (process text).2 = take 3 (extract_urls_from_text text) ∧
  (length (process text).2 <= 3)%nat ∧
  startswith (process text).1 text = true ∧
  ((process text).2 = [] → (process text).1 = text).
Proof.
  split; [apply process_fetched|]. split; [|split].
  - rewrite process_fetched, length_take. lia.
  - apply process_prefix.
  - apply process_unchanged.
Qed.

Lemma enrich_field_frame (state : gmap string pyval * list string) (field : string) :
  (∀ k, k ≠ field → (enrich_field fetch_url_content state field).1 !! k = state.1 !! k) ∧
  (∀ k, truthy ((enrich_field fetch_url_content state field).1 !! k) = truthy (state.1 !! k)) ∧
  (length (enrich_field fetch_url_content state field).2 <= length state.2 + 3)%nat.
Proof.
  destruct state as [form_data fetched]. unfold enrich_field.
  destruct (form_data !! field) as [[original_content|q]|] eqn:E;
    try (repeat split; try done; cbn; lia).
  destruct (truthy (Some (VStr original_content)) && is_valid_url original_content) eqn:E2;
    [|repeat split; try done; cbn; lia].
  apply andb_true_iff in E2 as [Htrue _].
  pose proof (process_prefix original_content) as Hpre.
  assert (Hlen : (length (process original_content).2 <= 3)%nat)
    by (rewrite process_fetched, length_take; lia).
  destruct (process_text_with_urls fetch_url_content original_content)
    as [enhanced_content urls].
  cbn [fst snd] in *. split; [|split].
  - intros k Hk. by rewrite lookup_insert_ne.
  - intros k. destruct (decide (k = field)) as [->|Hk].
    + rewrite lookup_insert_eq, E, Htrue.
      destruct (startswith_inv _ _ Hpre) as [r ->].
      destruct original_content; [done|]. by rewrite app_cons.
    + by rewrite lookup_insert_ne.
  - rewrite List.length_app. lia.
Qed.

Lemma enrich_fields_frame (fields : list string) (state : gmap string pyval * list string) :
  (∀ k, k ∉ fields → (foldl (enrich_field fetch_url_content) state fields).1 !! k = state.1 !! k) ∧
  (∀ k, truthy ((foldl (enrich_field fetch_url_content) state fields).1 !! k) =
        truthy (state.1 !! k)) ∧
  (length (foldl (enrich_field fetch_url_content) state fields).2
     <= length state.2 + 3 * length fields)%nat.
Proof.
  revert state. induction fields as [|field fields IH]; intros state; cbn [foldl].
  - repeat split; try done; cbn; lia.
  - destruct (IH (enrich_field fetch_url_content state field)) as (H1 & H2 & H3).
    destruct (enrich_field_frame state field) as (F1 & F2 & F3).
    split; [|split].
    + intros k [Hk Hks]%not_elem_of_cons. by rewrite H1, F1.
    + intros k. by rewrite H2, F2.
    + cbn [length]. lia.
Qed.

(** X19: The URL step of the handler changes no entry outside the nine text
    fields it checks and turns no filled field into an empty one: the metric
    set and the list of missing required fields are those of the form as
    typed.  It fetches at most 27 pages, and none in Light mode. *)
Theorem url_enrichment_keeps_scores (session : SessionState) (form_data : gmap string pyval) :
  let enriched := enrich_form fetch_url_content session form_data in
  (∀ k, k ∉ url_fields_to_check → enriched.1 !! k = form_data !! k) ∧
  calculate_comprehensive_metrics enriched.1 = calculate_comprehensive_metrics form_data ∧
  missing_fields enriched.1 = missing_fields form_data ∧
  (length enriched.2 <= 27)%nat ∧
  (mode session = Light → enriched = (form_data, [])).
Proof.
  cbn zeta.
  assert (H : (∀ k, k ∉ url_fields_to_check →
                 (enrich_form fetch_url_content session form_data).1 !! k = form_data !! k) ∧
              (∀ k, truthy ((enrich_form fetch_url_content session form_data).1 !! k) =
                    truthy (form_data !! k)) ∧
              (length (enrich_form fetch_url_content session form_data).2 <= 27)%nat).
  { unfold enrich_form. destruct (mode session).
    - repeat split; try done; cbn; lia.
    - apply (enrich_fields_frame url_fields_to_check (form_data, [])). }
  destruct H as (H1 & H2 & H3).
  split; [exact H1|]. split; [|split; [|split; [exact H3|]]].
  - assert (Hk : ∀ k, k ∈ numeric_fields →
                   (enrich_form fetch_url_content session form_data).1 !! k = form_data !! k).
    { assert (Hd : Forall (λ k, k ∉ url_fields_to_check) numeric_fields)
        by (apply (bool_decide_unpack _); by vm_compute).
      rewrite Forall_forall in Hd. intros k Hk. by apply H1, Hd. }
    same_reads Hk.
  - unfold missing_fields. apply list_filter_iff. intros field. by rewrite H2.
  - unfold enrich_form. by intros ->.
Qed.

End UrlFacts.

(** ** clean_markdown *)

Lemma replace_absent (s : list N) (old : N) (new : list N) :
  old ∉ s → replace s old new = s.
Proof.
  induction s as [|c s IH]; [done|]. intros [Hc Hs]%not_elem_of_cons.
  cbn [replace]. rewrite bool_decide_eq_false_2 by done. by rewrite IH.
Qed.

Lemma replace_keeps_absent (x : N) (s : list N) (old : N) (new : list N) :
  x ∉ s → x ∉ new → x ∉ replace s old new.
Proof.
  intros Hs Hn. induction s as [|c s IH]; [done|].
  apply not_elem_of_cons in Hs as [Hc Hs]. cbn [replace].
  destruct (bool_decide (c = old)).
  - rewrite elem_of_app. intros [?|?]; [done|by apply IH].
  - apply not_elem_of_cons. split; [done|by apply IH].
Qed.

Lemma replace_removes (s : list N) (old : N) (new : list N) :
  old ∉ new → old ∉ replace s old new.
Proof.
  intros Hn. induction s as [|c s IH]; [by intros ?%elem_of_nil|].
  cbn [replace]. destruct (bool_decide (c = old)) eqn:E.
  - rewrite elem_of_app. by intros [?|?].
  - apply bool_decide_eq_false in E. apply not_elem_of_cons. split; [done|exact IH].
Qed.

(** The recursion of [space_after_periods] goes one or two characters
    down. *)
Lemma two_step_ind (P : list N → Prop) :
  P [] → (∀ c, P [c]) →
  (∀ c d rest, P rest → P (d :: rest) → P (c :: d :: rest)) →
  ∀ text, P text.
Proof.
  intros H0 H1 H2 text.
  assert (H : P text ∧ ∀ c, P (c :: text)); [|by destruct H].
  induction text as [|d rest [IH1 IH2]]; [by split|].
  split; [apply IH2|]. intros c. by apply H2.
Qed.

Lemma space_after_periods_cons (c d : N) (rest : list N) :
  space_after_periods (c :: d :: rest) =
  if bool_decide (c = period) && is_upper d
  then period :: space :: d :: space_after_periods rest
  else c :: space_after_periods (d :: rest).
Proof. reflexivity. Qed.

Lemma space_after_periods_elem (x : N) (text : list N) :
  x ∈ space_after_periods text → x ∈ text ∨ x = space.
Proof.
  induction text as [|c|c d rest IH1 IH2] using two_step_ind; [by left..|].
  cbn [space_after_periods].
  destruct (bool_decide (c = period) && is_upper d) eqn:E.
  - apply andb_true_iff in E as [->%bool_decide_eq_true _].
    rewrite !elem_of_cons. intros [->|[->|[->|H]]]; [tauto..|].
    destruct (IH1 H); tauto.
  - rewrite !elem_of_cons. intros [->|H]; [tauto|].
    destruct (IH2 H) as [H'|H']; [|tauto]. apply elem_of_cons in H'. tauto.
Qed.

Lemma space_after_periods_head (text : list N) :
  head (space_after_periods text) = head text.
Proof.
  destruct text as [|c [|d rest]]; [done..|]. cbn [space_after_periods].
  destruct (bool_decide (c = period) && is_upper d) eqn:E; [|done].
  by apply andb_true_iff in E as [->%bool_decide_eq_true _].
Qed.

Lemma spaced_cons (c : N) (text : list N) :
  spaced (c :: text) =
  match head text with
  | Some d => negb (bool_decide (c = period) && is_upper d) && spaced text
  | None => true
  end.
Proof. by destruct text. Qed.

Lemma is_upper_period (d : N) : is_upper d = true → d ≠ period.
Proof. intros H ->. done. Qed.

Lemma space_after_periods_spaced (text : list N) :
  spaced (space_after_periods text) = true.
Proof.
  induction text as [|c|c d rest IH1 IH2] using two_step_ind; [done..|].
  rewrite space_after_periods_cons.
  destruct (bool_decide (c = period) && is_upper d) eqn:E.
  - apply andb_true_iff in E as [_ Hd%is_upper_period].
    rewrite !spaced_cons. cbn [head]. rewrite IH1.
    rewrite (bool_decide_eq_false_2 (space = period)) by done.
    rewrite (bool_decide_eq_false_2 (d = period)) by done.
    cbn. by destruct (head _).
  - rewrite spaced_cons, space_after_periods_head. cbn [head]. by rewrite E, IH2.
Qed.

Lemma spaced_fixed (text : list N) :
  spaced text = true → space_after_periods text = text.
Proof.
  induction text as [|c|c d rest IH1 IH2] using two_step_ind; [done..|].
  rewrite spaced_cons, space_after_periods_cons. cbn [head].
  intros [E H]%andb_true_iff. apply negb_true_iff in E. rewrite E.
  by rewrite IH2.
Qed.

Lemma absent_after_clean (x : N) (text : list N) :
  x = star ∨ x = underscore ∨ x = bullet → x ∉ clean_markdown text.
Proof.
  intros Hx. unfold clean_markdown.
  destruct (bool_decide (text = [])) eqn:E.
  { apply bool_decide_eq_true in E as ->. by intros ?%elem_of_nil. }
  cbn zeta. intros [H|H]%space_after_periods_elem;
    [|rewrite H in Hx; by destruct Hx as [?|[?|?]]].
  revert H. destruct Hx as [-> | [-> | ->]].
  - do 2 (apply replace_keeps_absent; [|by rewrite ?elem_of_cons, ?elem_of_nil; intuition]).
    apply replace_removes. by intros ?%elem_of_nil.
  - apply replace_keeps_absent; [|by rewrite ?elem_of_cons, ?elem_of_nil; intuition].
    apply replace_removes. by intros ?%elem_of_nil.
  - apply replace_removes. rewrite elem_of_cons, elem_of_nil. by intros [?|?].
Qed.

Lemma spaced_after_clean (text : list N) : spaced (clean_markdown text) = true.
Proof.
  unfold clean_markdown. destruct (bool_decide (text = [])) eqn:E.
  - by apply bool_decide_eq_true in E as ->.
  - apply space_after_periods_spaced.
Qed.

Lemma clean_fixed (text : list N) :
  star ∉ text → underscore ∉ text → bullet ∉ text → spaced text = true →
  clean_markdown text = text.
Proof.
  intros H1 H2 H3 H4. unfold clean_markdown.
  destruct (bool_decide (text = [])); [done|]. cbn zeta.
  rewrite (replace_absent text star) by done.
  rewrite (replace_absent text underscore) by done.
  rewrite (replace_absent text bullet) by done.
  by apply spaced_fixed.
Qed.

(** X20: The cleaned text holds no asterisk, no underscore and no bullet, no
    period of it is followed by a capital letter, and cleaning it a second
    time changes nothing. *)
Theorem clean_markdown_output (text : list N) :
  (star ∉ clean_markdown text) ∧
  (underscore ∉ clean_markdown text) ∧
  (bullet ∉ clean_markdown text) ∧
  spaced (clean_markdown text) = true ∧
  clean_markdown (clean_markdown text) = clean_markdown text.
Proof.
  assert (H1 : star ∉ clean_markdown text) by (apply absent_after_clean; tauto).
  assert (H2 : underscore ∉ clean_markdown text) by (apply absent_after_clean; tauto).
  assert (H3 : bullet ∉ clean_markdown text) by (apply absent_after_clean; tauto).
  pose proof (spaced_after_clean text) as H4.
  repeat split; try done. by apply clean_fixed.
Qed.

(** X21: The texts that the cleaning leaves as they are: those without
    asterisk, underscore and bullet in which no period is followed by a
    capital letter. *)
Theorem clean_markdown_fixed_points (text : list N) :
  clean_markdown text = text ↔
  (star ∉ text) ∧ (underscore ∉ text) ∧ (bullet ∉ text) ∧ spaced text = true.
Proof.
  split.
  - intros H. rewrite <- H.
    repeat split; try (apply absent_after_clean; tauto). apply spaced_after_clean.
  - intros (H1 & H2 & H3 & H4). by apply clean_fixed.
Qed.
